(** * hyperloop: the compile command of lib/hyperloop.js

    A shallow embedding of the constant evaluator ([toValue],
    [makeArrayFromArg], [makeDictionaryFromArg], [evalExpression]), of the
    tree-transformer callback of the compile command and of the driver code
    around it, followed by the properties established about them.

    JavaScript values are an inductive type, property reads on AST nodes
    are total functions that answer [JUndefined] / [None] where the object
    has no such property, and a [throw] is the [Throw] result. *)

From Stdlib Require Import String Ascii List ZArith Bool DecimalString Lia.
Import ListNotations.
Open Scope string_scope.
Set Warnings "-register-all".

(** ** AST nodes of the parser library, as the compiler reads them *)

(** [node.start]: the token a node starts at. *)
Record position : Type := mkPosition
  { file : string;
    line : nat;
    col : nat }.

(** The scope objects built by [ast.figure_out_scope()] are shared between
    nodes: a symbol refers to its scope by a key into the scope table. *)
Definition scope_id : Type := nat.

Inductive AST_Node : Type :=
| AST_String (value : string)
| AST_Number (value : Z)
| AST_True
| AST_False
| AST_Null
| AST_Array (elements : list AST_Node)
| AST_Object (properties : list (string * AST_Node))
| AST_SymbolRef (start : position) (name : string) (scope : scope_id)
| AST_SymbolConst (name : string)
| AST_SymbolLambda (name : string)
| AST_Binary (operator : string) (left right : AST_Node)
| AST_Dot (expression : AST_Node) (property : string)
| AST_Call (start : position) (expression : AST_Node) (args : list AST_Node)
| AST_New (start : position) (expression : AST_Node) (args : list AST_Node)
| AST_Function (name : option string) (body : list AST_Node)
| AST_SimpleStatement (start : position) (body : AST_Node)
| AST_EmptyStatement
| AST_Toplevel (body : list AST_Node).

(** A variable definition of a scope ([SymbolDef]); [init] is the
    initialiser of a [var]/[const], absent for [var x;], functions and
    arguments. *)
Record SymbolDef : Type := mkSymbolDef
  { init : option AST_Node }.

(** One scope and its ancestors, innermost first: each frame is that
    scope's [variables] dictionary, keys in insertion order. *)
Definition AST_Scope : Type := list (list (string * SymbolDef)).

(** ** JavaScript values and completions *)

Inductive js_error : Type :=
| Error (message : string)
| TypeError (message : string)
| ReferenceError (message : string).

Inductive jsval : Type :=
| JUndefined
| JNull
| JBool (b : bool)
| JNum (z : Z)
| JStr (s : string)
| JArr (items : list jsval)
| JObj (fields : list (string * jsval))
| JProto (prototype : jsval) (fields : list (string * jsval))
| JNode (n : AST_Node)
| JError (e : js_error).

Inductive result (A : Type) : Type :=
| Ok (a : A)
| Throw (e : js_error)
| OutOfFuel.

Arguments Ok {A} a.
Arguments Throw {A} e.
Arguments OutOfFuel {A}.

Definition error_message (e : js_error) : string :=
  match e with
  | Error m | TypeError m | ReferenceError m => m
  end.

(** [E.toString()] *)
Definition error_toString (e : js_error) : string :=
  match e with
  | Error m => "Error: " ++ m
  | TypeError m => "TypeError: " ++ m
  | ReferenceError m => "ReferenceError: " ++ m
  end.

(** Truthiness of a value, as [if (v)] and [!v] test it. *)
Definition truthy (v : jsval) : bool :=
  match v with
  | JUndefined | JNull => false
  | JBool b => b
  | JNum z => negb (Z.eqb z 0)
  | JStr s => negb (String.eqb s "")
  | JArr _ | JObj _ | JProto _ _ | JNode _ | JError _ => true
  end.

Definition decimal (n : nat) : string :=
  NilEmpty.string_of_uint (Nat.to_uint n).

Fixpoint join (sep : string) (l : list string) : string :=
  match l with
  | [] => ""
  | [x] => x
  | x :: rest => x ++ sep ++ join sep rest
  end.

(** ** Property reads *)

(** [n.value] *)
Definition value_of (n : AST_Node) : jsval :=
  match n with
  | AST_String s => JStr s
  | AST_Number z => JNum z
  | AST_True => JBool true
  | AST_False => JBool false
  | AST_Null => JNull
  | _ => JUndefined
  end.

(** [n.elements] *)
Definition elements_of (n : AST_Node) : option (list AST_Node) :=
  match n with
  | AST_Array l => Some l
  | _ => None
  end.

(** [n.properties], each property as its [key] and [value] *)
Definition properties_of (n : AST_Node) : option (list (string * AST_Node)) :=
  match n with
  | AST_Object ps => Some ps
  | _ => None
  end.

(** [n.name]: a string on symbols, a symbol node on a named function
    expression, [null] on an anonymous one. *)
Definition name_of (n : AST_Node) : jsval :=
  match n with
  | AST_SymbolRef _ s _ | AST_SymbolConst s | AST_SymbolLambda s => JStr s
  | AST_Function (Some f) _ => JNode (AST_SymbolLambda f)
  | AST_Function None _ => JNull
  | _ => JUndefined
  end.

(** [n.scope]: set by [figure_out_scope] on the symbols of the parsed
    tree; a node built afterwards from [{name: ...}] alone has none. *)
Definition scope_of (n : AST_Node) : option scope_id :=
  match n with
  | AST_SymbolRef _ _ s => Some s
  | _ => None
  end.

(** [n.expression] *)
Definition expression_of (n : AST_Node) : option AST_Node :=
  match n with
  | AST_Dot e _ | AST_Call _ e _ | AST_New _ e _ => Some e
  | _ => None
  end.

(** [n.args] *)
Definition args_of (n : AST_Node) : option (list AST_Node) :=
  match n with
  | AST_Call _ _ a | AST_New _ _ a => Some a
  | _ => None
  end.

(** [n.start], on the nodes whose position the compiler reads. *)
Definition start_of (n : AST_Node) : option position :=
  match n with
  | AST_SymbolRef p _ _ | AST_Call p _ _ | AST_New p _ _
  | AST_SimpleStatement p _ => Some p
  | _ => None
  end.

(** [left], [operator] and [right] of a binary expression. *)
Definition binary_of (n : AST_Node) : option (AST_Node * string * AST_Node) :=
  match n with
  | AST_Binary op l r => if String.eqb op "" then None else Some (l, op, r)
  | _ => None
  end.

(** The string a value is turned into where a string is expected
    ([RegExp.prototype.test], string concatenation); an object is taken
    with the [toString] of [Object.prototype]. *)
Fixpoint ToString (v : jsval) : string :=
  match v with
  | JUndefined => "undefined"
  | JNull => "null"
  | JBool true => "true"
  | JBool false => "false"
  | JStr s => s
  | JNum z => match z with
              | Z0 => "0"
              | Zpos p => decimal (Pos.to_nat p)
              | Zneg p => "-" ++ decimal (Pos.to_nat p)
              end
  | JArr items =>
      join ","
        ((fix each (l : list jsval) : list string :=
            match l with
            | [] => []
            | JUndefined :: rest | JNull :: rest => "" :: each rest
            | x :: rest => ToString x :: each rest
            end) items)
  | JObj _ | JProto _ _ | JNode _ => "[object Object]"
  | JError e => error_toString e
  end.

(** [if (o.p)] on a property that holds an object when present. *)
Definition has {A : Type} (o : option A) : bool :=
  match o with
  | Some _ => true
  | None => false
  end.

(** ** Objects used as dictionaries *)

(** The own properties of an object, in the order they were created.
    [obj_set] writes one: it replaces the value of an existing key in
    place and appends a new key. [obj_get] reads one. *)
Fixpoint obj_set {A : Type} (o : list (string * A)) (k : string) (v : A)
  : list (string * A) :=
  match o with
  | [] => [(k, v)]
  | (k', v') :: rest =>
      if String.eqb k k' then (k, v) :: rest
      else (k', v') :: obj_set rest k v
  end.

Fixpoint obj_get {A : Type} (o : list (string * A)) (k : string) : option A :=
  match o with
  | [] => None
  | (k', v) :: rest => if String.eqb k k' then Some v else obj_get rest k
  end.

(** An object that starts as [{}] (or comes from [JSON.parse]): its own
    properties and, once an assignment to [__proto__] has replaced it, its
    prototype; [None] stands for [Object.prototype]. *)
Record object (A : Type) : Type := mkObject
  { own : list (string * A);
    proto : option A }.

Arguments mkObject {A} own proto.
Arguments own {A} o.
Arguments proto {A} o.

Definition empty_object {A : Type} : object A := mkObject [] None.

(** How [o.__proto__ = v] ends on an object that has no own property of
    that name: the accessor of [Object.prototype] is reached and [v] is an
    object or [null]; it is reached and [v] is a primitive; it is not
    reached, the prototype chain having ended or holding a property of
    that name. *)
Inductive proto_write : Type :=
| SetsPrototype
| NoEffect
| DefinesProperty.

(** [o[k] = v]. A key the object has is overwritten and a new key is
    appended, but for [__proto__], which is an accessor on
    [Object.prototype]: as long as the object has no own property of that
    name, the assignment replaces the prototype or does nothing. The
    other properties found on a prototype chain are taken to be writable
    data properties, which an assignment shadows with an own property. *)
Definition assign {A : Type} (on_proto : option A -> A -> proto_write)
    (o : object A) (k : string) (v : A) : object A :=
  if has (obj_get (own o) k) || negb (String.eqb k "__proto__")
  then mkObject (obj_set (own o) k v) (proto o)
  else match on_proto (proto o) v with
       | SetsPrototype => mkObject (own o) (Some v)
       | NoEffect => o
       | DefinesProperty => mkObject (obj_set (own o) k v) (proto o)
       end.

(** [o[k]] where an entry of a table is expected: the own property; for
    [__proto__] without own property, the prototype that an assignment
    has put there. [None] also stands for what such a read answers
    otherwise, [Object.prototype] or a member of the prototype chain. *)
Definition lookup {A : Type} (o : object A) (k : string) : option A :=
  match obj_get (own o) k with
  | Some v => Some v
  | None => if String.eqb k "__proto__" then proto o else None
  end.

(** The values the setter of [__proto__] accepts. *)
Definition is_object_or_null (v : jsval) : bool :=
  match v with
  | JNull | JArr _ | JObj _ | JProto _ _ | JNode _ | JError _ => true
  | JUndefined | JBool _ | JNum _ | JStr _ => false
  end.

(** Whether the search for [__proto__] from the object [p] upwards ends
    on the accessor of [Object.prototype]: not when the chain ends on
    [null] first, nor when an object of the chain has a property of that
    name. *)
Fixpoint reaches_proto_accessor (p : jsval) : bool :=
  match p with
  | JNull => false
  | JObj fields => negb (has (obj_get fields "__proto__"))
  | JProto q fields =>
      negb (has (obj_get fields "__proto__")) && reaches_proto_accessor q
  | _ => true
  end.

Definition proto_write_of (p : option jsval) (v : jsval) : proto_write :=
  if match p with
     | None => true
     | Some q => reaches_proto_accessor q
     end
  then if is_object_or_null v then SetsPrototype else NoEffect
  else DefinesProperty.

(** The value an object under construction stands for. *)
Definition JObject (o : object jsval) : jsval :=
  match proto o with
  | None => JObj (own o)
  | Some p => JProto p (own o)
  end.

(** [scope.find_variable(name)]: this scope's dictionary first, then the
    parent scope's. *)
Fixpoint find_variable (s : AST_Scope) (name : string) : option SymbolDef :=
  match s with
  | [] => None
  | vars :: parent =>
      match obj_get vars name with
      | Some d => Some d
      | None => find_variable parent name
      end
  end.

(** [scope.variables._values] *)
Definition variables_of (s : AST_Scope) : list (string * SymbolDef) :=
  match s with
  | [] => []
  | vars :: _ => vars
  end.

(** ** The regular expressions of the module *)

(** [s.indexOf(sub) >= 0] *)
Fixpoint includes (sub s : string) : bool :=
  if prefix sub s then true
  else match s with
       | EmptyString => false
       | String _ rest => includes sub rest
       end.

(** [RESERVED_SYMBOLS = /(static|native|class|package|import)/] (line
    178): the pattern has no anchors, it matches anywhere in the text. *)
Definition RESERVED_SYMBOLS_test (s : string) : bool :=
  includes "static" s || includes "native" s || includes "class" s
  || includes "package" s || includes "import" s.

(** [\w] *)
Definition is_word_char (c : ascii) : bool :=
  ((("a" <=? c) && (c <=? "z")) || (("A" <=? c) && (c <=? "Z"))
   || (("0" <=? c) && (c <=? "9")) || Ascii.eqb c "_")%char.

(** [/(\w) is not defined/.exec(message)]: the first group of the leftmost
    match, if there is a match. *)
Fixpoint not_defined_exec (message : string) : option string :=
  match message with
  | EmptyString => None
  | String c rest =>
      if is_word_char c && prefix " is not defined" rest
      then Some (String c EmptyString)
      else not_defined_exec rest
  end.

(** The characters of an identifier: those of [\w] and the dollar sign. *)
Definition is_identifier_char (c : ascii) : bool :=
  is_word_char c || Ascii.eqb c "$".

Fixpoint all_chars (p : ascii -> bool) (s : string) : bool :=
  match s with
  | EmptyString => true
  | String c rest => p c && all_chars p rest
  end.

(** ** The source model *)

(** Modelled from the spec: lib/<platform>/sourcefile.js is not part of
    the sources. A [SourceFile] accumulates the declarations of one file:
    at most one package, and ordered lists of classes, statics, natives,
    imports, instantiations {symbol, class name, location} and call sites
    {symbol, function name, raw argument text, location}. *)
Record instantiation : Type := mkInstantiation
  { inst_symbol : string;
    inst_class : string;
    inst_location : option position }.

Record callSite : Type := mkCallSite
  { call_symbol : string;
    call_function : string;
    call_args : list string;
    call_location : option position }.

Record SourceFile : Type := mkSourceFile
  { filename : string;
    jsname : string;
    packageDecl : option jsval;
    classDecls : list jsval;
    staticDecls : list jsval;
    nativeDecls : list jsval;
    importDecls : list jsval;
    instantiations : list instantiation;
    callSites : list callSite;
    cached : bool;
    finished : option string }.

(** [new SourceFile(filename, name)] *)
Definition new_SourceFile (filename name : string) : SourceFile :=
  mkSourceFile filename name None [] [] [] [] [] [] false None.

(** ** The data of the driver *)

(** What the driver reads of one input file: its names, the digest of its
    text, its parsed tree, and the answer of [isCacheable(options.srcdir)]
    on the unit restored from the cache. *)
Record source_input : Type := mkInput
  { in_relativeFilename : string;
    in_jsfilename : string;
    in_sourceHash : string;
    in_ast : AST_Node;
    in_cacheable : bool }.

(** The [sourcefile] of a cache entry: the plain data read from the cache
    file, or the object of a file compiled in this run. *)
Inductive cached_unit : Type :=
| Stored (sf : SourceFile)
| Live (ref : nat).

Record cache_entry : Type := mkEntry
  { sourceHash : string;
    sourcefile : cached_unit }.

(** The objects the run shares: the source files (by reference), the
    references handed to [codegen.addSource], and [fileCache]. *)
Record driver : Type := mkDriver
  { heap : list SourceFile;
    codegen_sources : list nat;
    fileCache : object cache_entry }.

Record exit : Type := mkExit
  { status : Z;
    reported : option string }.

Inductive outcome : Type :=
| Continue
| Exited (e : exit)
| NoFuel.

(** Modelled from the spec: lib/log.js is not part of the sources.
    [log.error] reports the message and terminates the process with a
    non-zero status; [required] documents it as the call that exits. *)
Definition log_error (message : string) : exit := mkExit 1 (Some message).

(** ** A printer and a host for concrete runs *)

Definition dquote : string := String (ascii_of_nat 34) EmptyString.

(** A compact printer for the node kinds of the model: no blanks, string
    literals between double quotes, an operand that is itself a binary
    expression between parentheses when it is printed inside another. *)
Fixpoint print_min (n : AST_Node) : string :=
  let operand (x : AST_Node) : string :=
    match x with
    | AST_Binary _ _ _ => "(" ++ print_min x ++ ")"
    | _ => print_min x
    end in
  match n with
  | AST_String s => dquote ++ s ++ dquote
  | AST_Number z => ToString (JNum z)
  | AST_True => "true"
  | AST_False => "false"
  | AST_Null => "null"
  | AST_Array elements =>
      "[" ++ join "," ((fix each (l : list AST_Node) : list string :=
                          match l with
                          | [] => []
                          | x :: rest => print_min x :: each rest
                          end) elements) ++ "]"
  | AST_Object properties =>
      "{" ++ join "," ((fix each (l : list (string * AST_Node)) : list string :=
                          match l with
                          | [] => []
                          | (k, x) :: rest => (k ++ ":" ++ print_min x) :: each rest
                          end) properties) ++ "}"
  | AST_SymbolRef _ s _ | AST_SymbolConst s | AST_SymbolLambda s => s
  | AST_Binary op l r => operand l ++ op ++ operand r
  | AST_Dot e p => print_min e ++ "." ++ p
  | AST_Call _ e a =>
      print_min e ++ "(" ++ join "," ((fix each (l : list AST_Node) : list string :=
                                         match l with
                                         | [] => []
                                         | x :: rest => print_min x :: each rest
                                         end) a) ++ ")"
  | AST_New _ e a =>
      "new " ++ print_min e ++ "("
      ++ join "," ((fix each (l : list AST_Node) : list string :=
                      match l with
                      | [] => []
                      | x :: rest => print_min x :: each rest
                      end) a) ++ ")"
  | AST_Function name body =>
      "function" ++ match name with Some f => " " ++ f | None => "" end ++ "(){"
      ++ join "" ((fix each (l : list AST_Node) : list string :=
                     match l with
                     | [] => []
                     | x :: rest => print_min x :: each rest
                     end) body) ++ "}"
  | AST_SimpleStatement _ b => print_min b ++ ";"
  | AST_EmptyStatement => ";"
  | AST_Toplevel body =>
      join "" ((fix each (l : list AST_Node) : list string :=
                  match l with
                  | [] => []
                  | x :: rest => print_min x :: each rest
                  end) body)
  end.

(** The host below runs the function texts that [evalExpression] builds
    when the expression is a chain of [+] over string literals, decimal
    literals and identifiers. *)
Inductive token : Type :=
| TStr (s : string)
| TNum (n : nat)
| TId (s : string)
| TPlus
| TBad.

Inductive lex_state : Type :=
| LIdle
| LInStr (acc : string)
| LInNum (n : nat)
| LInId (acc : string).

Definition is_digit (c : ascii) : bool := (("0" <=? c) && (c <=? "9"))%char.

Definition digit_of (c : ascii) : nat := nat_of_ascii c - 48.

Definition lex_begin (c : ascii) : list token * lex_state :=
  if Ascii.eqb c (ascii_of_nat 34) then ([], LInStr "")
  else if is_digit c then ([], LInNum (digit_of c))
  else if is_identifier_char c then ([], LInId (String c ""))
  else if Ascii.eqb c "+" then ([TPlus], LIdle)
  else if Ascii.eqb c " " then ([], LIdle)
  else ([TBad], LIdle).

Definition lex_flush (st : lex_state) : list token :=
  match st with
  | LIdle => []
  | LInStr _ => [TBad]
  | LInNum n => [TNum n]
  | LInId acc => [TId acc]
  end.

Fixpoint lex (s : string) (st : lex_state) : list token :=
  match s with
  | EmptyString => lex_flush st
  | String c rest =>
      match st with
      | LInStr acc =>
          if Ascii.eqb c (ascii_of_nat 34) then TStr acc :: lex rest LIdle
          else lex rest (LInStr (acc ++ String c ""))
      | LInNum n =>
          if is_digit c then lex rest (LInNum (10 * n + digit_of c))
          else TNum n :: (let (ts, st') := lex_begin c in ts ++ lex rest st')%list
      | LInId acc =>
          if is_identifier_char c
          then lex rest (LInId (acc ++ String c ""))
          else TId acc :: (let (ts, st') := lex_begin c in ts ++ lex rest st')%list
      | LIdle => (let (ts, st') := lex_begin c in ts ++ lex rest st')%list
      end
  end.

(** [a + b] on primitive values: concatenation as soon as one side is a
    string, the sum of two numbers otherwise. *)
Definition js_add (a b : jsval) : option jsval :=
  match a, b with
  | JStr x, (JStr _ | JNum _ | JBool _ | JNull | JUndefined) =>
      Some (JStr (x ++ ToString b))
  | (JNum _ | JBool _ | JNull | JUndefined), JStr y =>
      Some (JStr (ToString a ++ y))
  | JNum x, JNum y => Some (JNum (x + y))
  | _, _ => None
  end.

Definition unsupported : js_error := Error "not a text the example host runs".

Definition atom_value (env : list (string * jsval)) (t : token) : result jsval :=
  match t with
  | TStr s => Ok (JStr s)
  | TNum n => Ok (JNum (Z.of_nat n))
  | TId x =>
      match obj_get env x with
      | Some v => Ok v
      | None => Throw (ReferenceError (x ++ " is not defined"))
      end
  | _ => Throw unsupported
  end.

Fixpoint eval_chain (env : list (string * jsval)) (acc : jsval)
    (ts : list token) : result jsval :=
  match ts with
  | [] => Ok acc
  | TPlus :: t :: rest =>
      match atom_value env t with
      | Ok v =>
          match js_add acc v with
          | Some sum => eval_chain env sum rest
          | None => Throw unsupported
          end
      | other => other
      end
  | _ => Throw unsupported
  end.

Fixpoint strip_prefix (p s : string) : option string :=
  match p, s with
  | EmptyString, _ => Some s
  | String a p', String b s' => if Ascii.eqb a b then strip_prefix p' s' else None
  | String _ _, EmptyString => None
  end.

(** The text before the first occurrence of [stop], and the text after. *)
Fixpoint split_at (stop s : string) (acc : string) : option (string * string) :=
  match strip_prefix stop s with
  | Some rest => Some (acc, rest)
  | None =>
      match s with
      | EmptyString => None
      | String c s' => split_at stop s' (acc ++ String c "")
      end
  end.

Fixpoint split_commas (s : string) (acc : string) : list string :=
  match s with
  | EmptyString => if String.eqb acc "" then [] else [acc]
  | String c rest =>
      if Ascii.eqb c "," then acc :: split_commas rest ""
      else split_commas rest (acc ++ String c "")
  end.

Fixpoint bind_params (params : list string) (args : list jsval)
  : list (string * jsval) :=
  match params with
  | [] => []
  | p :: ps =>
      match args with
      | [] => (p, JUndefined) :: bind_params ps []
      | a :: rest => (p, a) :: bind_params ps rest
      end
  end.

Definition example_host (fn : string) (self : jsval) (args : list jsval)
  : result jsval :=
  match strip_prefix "(function(" fn with
  | None => Throw unsupported
  | Some after_head =>
      match split_at "){ return " after_head "" with
      | None => Throw unsupported
      | Some (params, after_return) =>
          match split_at "; })" after_return "" with
          | Some (body, EmptyString) =>
              let env := bind_params (split_commas params "") args in
              match lex body LIdle with
              | first :: rest =>
                  match atom_value env first with
                  | Ok v => eval_chain env v rest
                  | other => other
                  end
              | [] => Throw unsupported
              end
          | _ => Throw unsupported
          end
      end
  end.

(** Symbols for concrete runs: the replaced name and the rank of the
    rewrite in the unit. *)
Definition example_symbol (n : nat) (name : string) : string :=
  name ++ "_" ++ decimal n.

(** ** Example inputs *)

Definition at_line (l c : nat) : position := mkPosition "app.hjs" l c.

(** Scope tables of three one-scope files: [var w = 10;] in scope 0,
    [function native(o) { ... }] in scope 1, no declaration in scope 2. *)
Definition example_scopes (s : scope_id) : AST_Scope :=
  match s with
  | 0 => [[("w", mkSymbolDef (Some (AST_Number 10)))]]
  | 1 => [[("native", mkSymbolDef None)]]
  | _ => [[]]
  end.

(** A backend that reports no error and one changed file. *)
Definition example_generate (units : list SourceFile) : jsval * jsval :=
  (JUndefined, JStr "build/app.m").

(** [native({foo: "bar"});] on line 2, in the file that declares a
    function called [native]. *)
Definition shadowed_native_statement : AST_Node :=
  AST_SimpleStatement (at_line 2 0)
    (AST_Call (at_line 2 0) (AST_SymbolRef (at_line 2 0) "native" 1)
       [AST_Object [("foo", AST_String "bar")]]).

(** [bar(x+1, "s")] with [bar] and [x] declared nowhere. *)
Definition bar_call : AST_Node :=
  AST_Call (at_line 1 0) (AST_SymbolRef (at_line 1 0) "bar" 2)
    [AST_Binary "+" (AST_SymbolRef (at_line 1 4) "x" 2) (AST_Number 1);
     AST_String "s"].

(** [new Foo(1, bar())] with [Foo] declared nowhere. *)
Definition new_Foo : AST_Node :=
  AST_New (at_line 1 0) (AST_SymbolRef (at_line 1 4) "Foo" 2)
    [AST_Number 1; AST_Call (at_line 1 11) (AST_SymbolRef (at_line 1 11) "bar" 2) []].

(** [native({path: "a" + width})] with [width] declared nowhere. *)
Definition native_width_call : AST_Node :=
  AST_Call (at_line 2 0) (AST_SymbolRef (at_line 2 0) "native" 2)
    [AST_Object [("path", AST_Binary "+" (AST_String "a")
                            (AST_SymbolRef (at_line 2 19) "width" 2))]].

(** The file [import("a"); import(x);] with [x] declared nowhere. *)
Definition failing_file : source_input :=
  mkInput "app.hjs" "app.hjs" "0cc175b9c0f1b6a831c399e269772661"
    (AST_Toplevel
       [AST_SimpleStatement (at_line 1 0)
          (AST_Call (at_line 1 0) (AST_SymbolRef (at_line 1 0) "import" 2)
             [AST_String "a"]);
        AST_SimpleStatement (at_line 2 0)
          (AST_Call (at_line 2 0) (AST_SymbolRef (at_line 2 0) "import" 2)
             [AST_SymbolRef (at_line 2 7) "x" 2])])
    false.

(** The file [import("a"); native({path: "a" + width});] with [width]
    declared nowhere. *)
Definition failing_native_file : source_input :=
  mkInput "app.hjs" "app.hjs" "92eb5ffee6ae2fec3ad71c777531578f"
    (AST_Toplevel
       [AST_SimpleStatement (at_line 1 0)
          (AST_Call (at_line 1 0) (AST_SymbolRef (at_line 1 0) "import" 2)
             [AST_String "a"]);
        AST_SimpleStatement (at_line 2 0) native_width_call])
    false.

(** The unit of [app.hjs] once [import("a")] is recorded. *)
Definition unit_with_import_a : SourceFile :=
  mkSourceFile "app.hjs" "app.hjs" None [] [] [] [JStr "a"] [] [] false None.

(** The unit of [app] once the call site of [bar(x+1, "s")] is recorded. *)
Definition unit_with_bar_call : SourceFile :=
  mkSourceFile "app.hjs" "app" None [] [] [] [] []
    [mkCallSite "bar_0" "bar" ["x+1"; dquote ++ "s" ++ dquote]
       (Some (at_line 1 0))]
    false None.

(** ** The names of a source file *)

(** [\s] on the characters of the model (one byte each). *)
Definition is_space_char (c : ascii) : bool :=
  let n := nat_of_ascii c in
  ((9 <=? n)%nat && (n <=? 13)%nat) || (n =? 32)%nat || (n =? 160)%nat.

(** The class [[\s-\/]]: a blank, a hyphen or a slash. *)
Definition is_replaced_char (c : ascii) : bool :=
  is_space_char c || Ascii.eqb c "-" || Ascii.eqb c "/".

(** [.replace(/[\s-\/]/g, '_')] *)
Fixpoint replace_invalid (s : string) : string :=
  match s with
  | EmptyString => EmptyString
  | String c rest =>
      String (if is_replaced_char c then "_"%char else c) (replace_invalid rest)
  end.

(** [.replace(/\.js$/, '')] *)
Fixpoint strip_js (s : string) : string :=
  match s with
  | EmptyString => EmptyString
  | String c rest => if String.eqb s ".js" then EmptyString else String c (strip_js rest)
  end.

(** [jsfilename] (line 221) *)
Definition jsfilename_of (relativeFilename : string) : string :=
  strip_js (replace_invalid relativeFilename).

(** [s.replace(pattern, '')] with a string for pattern: the first
    occurrence is removed. *)
Fixpoint remove_first (pattern s : string) : string :=
  match strip_prefix pattern s with
  | Some rest => rest
  | None =>
      match s with
      | EmptyString => EmptyString
      | String c rest => String c (remove_first pattern rest)
      end
  end.

(** [relativeFilename] (lines 219-220); [resolved] is
    [path.resolve(src)]. *)
Definition relativeFilename_of (isDir : bool) (resolved src filename : string)
  : string :=
  let relative := if isDir then remove_first resolved filename else src in
  match relative with
  | String "/" rest => rest
  | _ => relative
  end.

(** ** The listing of the source directory *)

(** What [fs.statSync] and [fs.readdirSync] answer below a directory: a
    file, or a directory with its entries in the order they are read. *)
Inductive fs_entry : Type :=
| fs_file
| fs_dir (entries : list (string * fs_entry)).

(** The body of the loop of [filelisting] (lines 82-90) for the entry at
    path [f]: a directory is listed into [files], a file is pushed. *)
Fixpoint list_entry (path_join : string -> string -> string) (f : string)
    (e : fs_entry) (files : list string) : list string :=
  match e with
  | fs_file => (files ++ [f])%list
  | fs_dir entries =>
      (fix forEach (l : list (string * fs_entry)) (files : list string)
         : list string :=
         match l with
         | [] => files
         | (name, x) :: rest =>
             forEach rest (list_entry path_join (path_join f name) x files)
         end) entries files
  end.

(** [filelisting(dir, files)] (lines 80-92) on a directory whose resolved
    path is [dir]; [path_join] is [path.join], and [path.resolve] leaves
    the paths it builds as they are. *)
Definition filelisting (path_join : string -> string -> string) (dir : string)
    (entries : list (string * fs_entry)) (files : list string) : list string :=
  list_entry path_join dir (fs_dir entries) files.

(** The files below a list of entries. *)
Fixpoint count_files (e : fs_entry) : nat :=
  match e with
  | fs_file => 1
  | fs_dir entries =>
      (fix sum (l : list (string * fs_entry)) : nat :=
         match l with
         | [] => 0
         | (_, x) :: rest => count_files x + sum rest
         end) entries
  end.

(** ** The definitions given to the compressor *)

Definition lower_char (c : ascii) : ascii :=
  if (("A" <=? c) && (c <=? "Z"))%char
  then ascii_of_nat (nat_of_ascii c + 32)
  else c.

Fixpoint lower (s : string) : string :=
  match s with
  | EmptyString => EmptyString
  | String c rest => String (lower_char c) (lower rest)
  end.

(** [/^word/i.test(s)] and [/(word)/i.test(s)] for a word of lower-case
    letters: letters are compared without their case. *)
Definition starts_with_i (word s : string) : bool := prefix word (lower s).

Definition includes_i (word s : string) : bool := includes word (lower s).

(** [env_dev], [env_prod] and [env_test] (lines 306-309) from
    [options.environment], [JUndefined] when the option is absent: the
    tests read the value as text. *)
Definition env_dev (env : jsval) : bool :=
  starts_with_i "dev" (ToString env) || negb (truthy env).

Definition env_prod (env : jsval) : bool := starts_with_i "prod" (ToString env).

Definition env_test (env : jsval) : bool := starts_with_i "test" (ToString env).

(** [o[k]] read as a value: [undefined] for a key that is not there. *)
Definition obj_read (o : list (string * jsval)) (k : string) : jsval :=
  match obj_get o k with
  | Some v => v
  | None => JUndefined
  end.

(** The platform tests of lines 315-322. *)
Definition os_ios (platform : string) : bool :=
  includes_i "ios" platform || includes_i "iphone" platform
  || includes_i "ipad" platform.

Definition os_iphone (platform : string) : bool :=
  includes_i "ios" platform || includes_i "iphone" platform.

Definition os_ipad (platform : string) : bool :=
  includes_i "ios" platform || includes_i "ipad" platform.

Definition os_web (platform : string) : bool :=
  includes_i "web" platform || includes_i "html" platform.

(** [.replace(/-/g, '_')] *)
Fixpoint hyphens_to_underscores (s : string) : string :=
  match s with
  | EmptyString => EmptyString
  | String c rest =>
      String (if Ascii.eqb c "-" then "_"%char else c)
        (hyphens_to_underscores rest)
  end.

(** The key under which the option [k] is given to the compressor (lines
    333-340); [toUpperCase] is the host's. *)
Definition define_key (toUpperCase : string -> string) (k : string) : string :=
  if starts_with_i "ti-" k
  then toUpperCase
         (hyphens_to_underscores ("TITANIUM_" ++ substring 3 (String.length k) k))
  else toUpperCase k.

(** [build_opts] as the literal of lines 310-327 leaves it; [now] is
    [new Date().toString()]. *)
Definition default_build_opts (options : list (string * jsval))
    (platform : string) (now : string) : list (string * jsval) :=
  let env := obj_read options "environment" in
  [("DEBUG", if truthy (obj_read options "debug")
             then obj_read options "debug" else JBool false);
   ("TITANIUM_VERSION", JStr "0.0.0");
   ("TITANIUM_BUILD_HASH", JStr "");
   ("TITANIUM_BUILD_DATE", JStr now);
   ("OS_IOS", JBool (os_ios platform));
   ("OS_IPHONE", JBool (os_iphone platform));
   ("OS_IPAD", JBool (os_ipad platform));
   ("OS_ANDROID", JBool (includes_i "android" platform));
   ("OS_BLACKBERRY", JBool (includes_i "blackberry" platform));
   ("OS_WEB", JBool (os_web platform));
   ("OS_MOBILEWEB", JBool (os_web platform));
   ("OS_TIZEN", JBool (includes_i "tizen" platform));
   ("ENV_DEV", JBool (env_dev env));
   ("ENV_DEVELOPMENT", JBool (env_dev env));
   ("ENV_TEST", JBool (env_test env));
   ("ENV_PRODUCTION", JBool (env_prod env))].

(** The loop of lines 332-341 over [Object.keys(options)]; the list
    holds each option once, in the order of its keys. *)
Fixpoint add_options (toUpperCase : string -> string)
    (options : list (string * jsval)) (build_opts : list (string * jsval))
  : list (string * jsval) :=
  match options with
  | [] => build_opts
  | (k, value) :: rest =>
      add_options toUpperCase rest
        (obj_set build_opts (define_key toUpperCase k) value)
  end.

(** The table given to the compressor as [global_defs]. *)
Definition build_opts (toUpperCase : string -> string)
    (options : list (string * jsval)) (platform now : string)
  : list (string * jsval) :=
  add_options toUpperCase options (default_build_opts options platform now).

(** ** More example inputs *)

(** The scope table of [var a = a;]. *)
Definition cyclic_scopes (s : scope_id) : AST_Scope :=
  [[("a", mkSymbolDef (Some (AST_SymbolRef (at_line 1 8) "a" 0)))]].

(** The scope table of [var __proto__ = 1, w = 10;]. *)
Definition proto_scopes (s : scope_id) : AST_Scope :=
  [[("__proto__", mkSymbolDef (Some (AST_Number 1)));
    ("w", mkSymbolDef (Some (AST_Number 10)))]].

(** A cache file that holds the unit of [lib/a.js], and that file,
    unchanged and with its output in place. *)
Definition stored_cache : object cache_entry :=
  mkObject
    [("lib_a",
      mkEntry "900150983cd24fb0d6963f7d28e17f72"
        (Stored (mkSourceFile "lib/a.js" "lib_a" None [] [] [] [JStr "fabs"] []
                   [] false (Some "fabs_0(1);"))))]
    None.

Definition unchanged_file : source_input :=
  mkInput "lib/a.js" "lib_a" "900150983cd24fb0d6963f7d28e17f72"
    AST_EmptyStatement true.

(** [label.text = s.toUTF8();] with [function helper() {}] declared and
    called: [helper();]. Scope 1 of [example_scopes] is used as the scope
    that declares the function. *)
Definition plain_file : source_input :=
  mkInput "util/str-tools.js" "util_str_tools" "d41d8cd98f00b204e9800998ecf8427e"
    (AST_Toplevel
       [AST_SimpleStatement (at_line 1 0)
          (AST_Call (at_line 1 0)
             (AST_Dot (AST_SymbolRef (at_line 1 0) "s" 2) "toUTF8") []);
        AST_SimpleStatement (at_line 2 0)
          (AST_Call (at_line 2 0) (AST_SymbolRef (at_line 2 0) "native" 1) [])])
    false.

(** A source tree: [app.js], [lib/] with [a.js] and an empty [gen/], and
    [README]. *)
Definition example_tree : list (string * fs_entry) :=
  [("app.js", fs_file);
   ("lib", fs_dir [("a.js", fs_file); ("gen", fs_dir [])]);
   ("README", fs_file)].

Definition slash_join (dir name : string) : string := dir ++ "/" ++ name.

(** ** The constant evaluator *)

Section Compiler.

(** The scope table of the file being compiled, as [figure_out_scope]
    left it. *)
Variable scopes : scope_id -> AST_Scope.

(** [node.print_to_string()] of the parser library. *)
Variable print_to_string : AST_Node -> string.

(** [eval(fn).apply(self, args)] of the host: [fn] is the source text of a
    function expression; the outcome is its return value or what it
    threw. *)
Variable eval_apply : string -> jsval -> list jsval -> result jsval.

(** [makeArrayFromArg(arg)] (lines 97-105): the [value] property of each
    element. *)
Definition makeArrayFromArg (arg : AST_Node) : jsval :=
  match elements_of arg with
  | Some ((_ :: _) as elements) => JArr (map value_of elements)
  | _ => JArr []
  end.

(** The scope dictionary [evalExpression] reads:
    [node.expression.scope ? node.expression.scope.variables._values
                           : node.expression.expression.scope.variables._values] *)
Definition expression_variables (node : AST_Node)
  : result (list (string * SymbolDef)) :=
  match expression_of node with
  | None => Throw (TypeError "Cannot read property 'scope' of undefined")
  | Some callee =>
      match scope_of callee with
      | Some s => Ok (variables_of (scopes s))
      | None =>
          match expression_of callee with
          | None => Throw (TypeError "Cannot read property 'scope' of undefined")
          | Some inner =>
              match scope_of inner with
              | Some s => Ok (variables_of (scopes s))
              | None =>
                  Throw (TypeError "Cannot read property 'variables' of undefined")
              end
          end
      end
  end.

(** The loop [for (var k in vars)] of [evalExpression]: fills the [scope]
    object and the [expr] array from the initialisers' [value]. *)
Fixpoint expand_scope (vars : list (string * SymbolDef))
    (scope : object jsval) (expr : list jsval)
  : result (object jsval * list jsval) :=
  match vars with
  | [] => Ok (scope, expr)
  | (k, d) :: rest =>
      match init d with
      | None => Throw (TypeError "Cannot read property 'value' of undefined")
      | Some i =>
          let v := value_of i in
          expand_scope rest (assign proto_write_of scope k v) (expr ++ [v])
      end
  end.

(** The [catch] clause of [evalExpression]. *)
Definition evalExpression_catch (node : AST_Node) (E : js_error) : js_error :=
  match not_defined_exec (error_message E) with
  | Some m1 =>
      match start_of node with
      | Some st =>
          Error ("can't seem to determine value of '" ++ m1
                 ++ "' during import at " ++ file st
                 ++ " on line " ++ decimal (line st))
      | None => TypeError "Cannot read property 'file' of undefined"
      end
  | None => E
  end.

(** [evalExpression(node, arg)] (lines 141-165) *)
Definition evalExpression (node arg : AST_Node) : result jsval :=
  match expression_variables node with
  | Throw e => Throw e
  | OutOfFuel => OutOfFuel
  | Ok vars =>
      match expand_scope vars empty_object [] with
      | Throw e => Throw e
      | OutOfFuel => OutOfFuel
      | Ok (scope, expr) =>
          match binary_of arg with
          | None => Throw (TypeError "Cannot call method 'print_to_string' of undefined")
          | Some (lhs, operator, rhs) =>
              let fn := "(function(" ++ join "," (map fst (own scope))
                        ++ "){ return " ++ print_to_string lhs ++ operator
                        ++ print_to_string rhs ++ "; })" in
              match eval_apply fn (JObject scope) expr with
              | Throw E => Throw (evalExpression_catch node E)
              | r => r
              end
          end
      end
  end.

(** [makeDictionaryFromArg(arg, node)] (lines 170-176), over the [toValue]
    it calls. *)
Definition makeDictionaryFromArg_with
    (toValue : option AST_Node -> AST_Node -> result jsval)
    (arg node : AST_Node) : result jsval :=
  match properties_of arg with
  | None => Throw (TypeError "Cannot call method 'forEach' of undefined")
  | Some properties =>
      (fix forEach (ps : list (string * AST_Node)) (obj : object jsval)
         : result jsval :=
         match ps with
         | [] => Ok (JObject obj)
         | (key, value) :: rest =>
             match toValue (Some value) node with
             | Ok v => forEach rest (assign proto_write_of obj key v)
             | Throw e => Throw e
             | OutOfFuel => OutOfFuel
             end
         end) properties empty_object
  end.

(** [toValue(value, node)] (lines 110-136). The fuel bounds the calls that follow
    initialisers and nested objects; a variable initialised by itself
    exhausts any amount of it. *)
Fixpoint toValue (fuel : nat) (value : option AST_Node) (node : AST_Node)
  : result jsval :=
  match fuel with
  | O => OutOfFuel
  | S fuel' =>
      match value with
      | None => Ok JNull
      | Some value =>
          if has (elements_of value) then Ok (makeArrayFromArg value)
          else if has (properties_of value)
          then makeDictionaryFromArg_with (toValue fuel') value node
          else if truthy (value_of value) then Ok (value_of value)
          else if truthy (name_of value) then
            match scope_of value with
            | None => Throw (TypeError "Cannot call method 'find_variable' of undefined")
            | Some s =>
                match find_variable (scopes s) (ToString (name_of value)) with
                | None =>
                    match start_of value with
                    | Some st =>
                        Throw (Error ("Couldn't find variable named: "
                                      ++ ToString (name_of value)
                                      ++ " at " ++ file st ++ " on "
                                      ++ decimal (line st) ++ ":"
                                      ++ decimal (col st)))
                    | None => Throw (TypeError "Cannot read property 'file' of undefined")
                    end
                | Some v => toValue fuel' (init v) node
                end
            end
          else if has (binary_of value) then evalExpression node value
          else Ok (JNode value)
      end
  end.

(** [makeDictionaryFromArg(arg, node)] *)
Definition makeDictionaryFromArg (fuel : nat) (arg node : AST_Node)
  : result jsval :=
  makeDictionaryFromArg_with (toValue fuel) arg node.

(** ** Recording into the source model *)

(** Modelled from the spec: the generated symbol of the n-th rewrite of a
    unit, for the name it replaces; the spec fixes no format, only that it
    is a function of the input. *)
Variable symbol_name : nat -> string -> string.

Definition next_symbol (sf : SourceFile) (name : string) : string :=
  symbol_name (length (instantiations sf) + length (callSites sf)) name.

(** Modelled from the spec: [processPackage(node, value)] of the absent
    sourcefile.js sets the package of the unit. *)
Definition processPackage (sf : SourceFile) (node : AST_Node) (v : jsval)
  : SourceFile :=
  mkSourceFile (filename sf) (jsname sf) (Some v) (classDecls sf)
    (staticDecls sf) (nativeDecls sf) (importDecls sf) (instantiations sf)
    (callSites sf) (cached sf) (finished sf).

(** Modelled from the spec: [processClass(node, value)] of the absent
    sourcefile.js appends to the classes of the unit. *)
Definition processClass (sf : SourceFile) (node : AST_Node) (v : jsval)
  : SourceFile :=
  mkSourceFile (filename sf) (jsname sf) (packageDecl sf) (classDecls sf ++ [v])
    (staticDecls sf) (nativeDecls sf) (importDecls sf) (instantiations sf)
    (callSites sf) (cached sf) (finished sf).

(** Modelled from the spec: [processStatic(node, value)] of the absent
    sourcefile.js appends to the statics of the unit. *)
Definition processStatic (sf : SourceFile) (node : AST_Node) (v : jsval)
  : SourceFile :=
  mkSourceFile (filename sf) (jsname sf) (packageDecl sf) (classDecls sf)
    (staticDecls sf ++ [v]) (nativeDecls sf) (importDecls sf)
    (instantiations sf) (callSites sf) (cached sf) (finished sf).

(** Modelled from the spec: [processNative(node, obj)] of the absent
    sourcefile.js appends to the natives of the unit. *)
Definition processNative (sf : SourceFile) (node : AST_Node) (v : jsval)
  : SourceFile :=
  mkSourceFile (filename sf) (jsname sf) (packageDecl sf) (classDecls sf)
    (staticDecls sf) (nativeDecls sf ++ [v]) (importDecls sf)
    (instantiations sf) (callSites sf) (cached sf) (finished sf).

(** Modelled from the spec: [processImport(node, value)] of the absent
    sourcefile.js appends to the imports of the unit, duplicates kept. *)
Definition processImport (sf : SourceFile) (node : AST_Node) (v : jsval)
  : SourceFile :=
  mkSourceFile (filename sf) (jsname sf) (packageDecl sf) (classDecls sf)
    (staticDecls sf) (nativeDecls sf) (importDecls sf ++ [v])
    (instantiations sf) (callSites sf) (cached sf) (finished sf).

(** Modelled from the spec: [processNewClass(node, name)] of the absent
    sourcefile.js records the instantiation and answers its symbol. *)
Definition processNewClass (sf : SourceFile) (node : AST_Node) (name : string)
  : string * SourceFile :=
  let symbol := next_symbol sf name in
  (symbol,
   mkSourceFile (filename sf) (jsname sf) (packageDecl sf) (classDecls sf)
     (staticDecls sf) (nativeDecls sf) (importDecls sf)
     (instantiations sf ++ [mkInstantiation symbol name (start_of node)])
     (callSites sf) (cached sf) (finished sf)).

(** Modelled from the spec: [processFunction(node, name, args)] of the
    absent sourcefile.js records the call site and answers its symbol. *)
Definition processFunction (sf : SourceFile) (node : AST_Node) (name : string)
    (args : list string) : string * SourceFile :=
  let symbol := next_symbol sf name in
  (symbol,
   mkSourceFile (filename sf) (jsname sf) (packageDecl sf) (classDecls sf)
     (staticDecls sf) (nativeDecls sf) (importDecls sf) (instantiations sf)
     (callSites sf ++ [mkCallSite symbol name args (start_of node)])
     (cached sf) (finished sf)).

(** Modelled from the spec: [finish(text)] of the absent sourcefile.js
    keeps the final text of the unit. *)
Definition finish (sf : SourceFile) (text : string) : SourceFile :=
  mkSourceFile (filename sf) (jsname sf) (packageDecl sf) (classDecls sf)
    (staticDecls sf) (nativeDecls sf) (importDecls sf) (instantiations sf)
    (callSites sf) (cached sf) (Some text).

(** ** The tree-transformer callback of the compile command *)

(** A computation on the source file being filled: the declarations
    recorded before a [throw] stay recorded. *)
Definition Visit (A : Type) : Type := SourceFile -> SourceFile * result A.

Definition ret {A : Type} (a : A) : Visit A := fun sf => (sf, Ok a).

Definition bind {A B : Type} (m : Visit A) (k : A -> Visit B) : Visit B :=
  fun sf =>
    match m sf with
    | (sf', Ok a) => k a sf'
    | (sf', Throw e) => (sf', Throw e)
    | (sf', OutOfFuel) => (sf', OutOfFuel)
    end.

(** A pure evaluation inside the walk. *)
Definition lift {A : Type} (r : result A) : Visit A := fun sf => (sf, r).

(** The statement branch, once the guard has passed: [switch] on the
    callee name; [arg] is [node.body.args[0]]. *)
Definition process_marker (fuel : nat) (node body arg : AST_Node)
    (name : jsval) : Visit (option AST_Node) :=
  match name with
  | JStr n =>
      if String.eqb n "package" then
        bind (lift (toValue fuel (Some arg) node)) (fun v sf =>
          (processPackage sf node v, Ok (Some AST_EmptyStatement)))
      else if String.eqb n "class" then
        bind (lift (toValue fuel (Some arg) node)) (fun v sf =>
          (processClass sf node v, Ok (Some AST_EmptyStatement)))
      else if String.eqb n "static" then
        bind (lift (toValue fuel (Some arg) node)) (fun v sf =>
          (processStatic sf node v, Ok (Some AST_EmptyStatement)))
      else if String.eqb n "native" then
        bind (lift (makeDictionaryFromArg fuel arg body)) (fun obj sf =>
          (processNative sf node obj, Ok (Some AST_EmptyStatement)))
      else if String.eqb n "import" then
        bind (lift (toValue fuel (Some arg) node)) (fun v sf =>
          (processImport sf node v, Ok (Some AST_EmptyStatement)))
      else ret None
  | _ => ret None
  end.

(** The function given to [Uglify.TreeTransformer] (lines 247-296): the
    replacement of [node], or [None] where the callback answers
    [undefined]. *)
Definition visit (fuel : nat) (node : AST_Node) : Visit (option AST_Node) :=
  match node with
  | AST_SimpleStatement _ body =>
      match expression_of body, args_of body with
      | Some callee, Some (arg :: _) =>
          if RESERVED_SYMBOLS_test (ToString (name_of callee))
          then process_marker fuel node body arg (name_of callee)
          else ret None
      | _, _ => ret None
      end
  | AST_New _ callee _ =>
      if truthy (name_of callee) then
        match scope_of callee with
        | None =>
            lift (Throw (TypeError "Cannot call method 'find_variable' of undefined"))
        | Some s =>
            match find_variable (scopes s) (ToString (name_of callee)) with
            | Some _ => ret None
            | None => fun sf =>
                let (newSymbol, sf') :=
                  processNewClass sf node (ToString (name_of callee)) in
                (sf', Ok (Some (AST_SymbolConst (newSymbol ++ "()"))))
            end
        end
      else ret None
  | AST_Call _ callee node_args =>
      if truthy (name_of callee)
         && negb (RESERVED_SYMBOLS_test (ToString (name_of callee))) then
        match scope_of callee with
        | None =>
            lift (Throw (TypeError "Cannot call method 'find_variable' of undefined"))
        | Some s =>
            match find_variable (scopes s) (ToString (name_of callee)) with
            | Some _ => ret None
            | None => fun sf =>
                let args := map print_to_string node_args in
                let (newSymbol, sf') :=
                  processFunction sf node (ToString (name_of callee)) args in
                (sf', Ok (Some (AST_SymbolConst
                                  (newSymbol ++ "(" ++ join "," args ++ ")"))))
            end
        end
      else ret None
  | _ => ret None
  end.

(** ** The traversal *)

(** [ast.transform(new TreeTransformer(null, f))] of the parser library:
    with no [before] function, the children of a node are transformed
    first, in source order, and [f] is then called on the rebuilt node; the
    node is replaced when [f] answers one. *)
Fixpoint transform (fuel : nat) (n : AST_Node) : Visit AST_Node :=
  let after (x : AST_Node) : Visit AST_Node :=
    bind (visit fuel x) (fun y =>
      ret (match y with Some replacement => replacement | None => x end)) in
  match n with
  | AST_Array elements =>
      bind ((fix do_list (l : list AST_Node) : Visit (list AST_Node) :=
               match l with
               | [] => ret []
               | x :: rest =>
                   bind (transform fuel x) (fun x' =>
                   bind (do_list rest) (fun rest' => ret (x' :: rest')))
               end) elements)
           (fun elements' => after (AST_Array elements'))
  | AST_Object properties =>
      bind ((fix do_list (l : list (string * AST_Node))
               : Visit (list (string * AST_Node)) :=
               match l with
               | [] => ret []
               | (k, x) :: rest =>
                   bind (transform fuel x) (fun x' =>
                   bind (do_list rest) (fun rest' => ret ((k, x') :: rest')))
               end) properties)
           (fun properties' => after (AST_Object properties'))
  | AST_Binary op l r =>
      bind (transform fuel l) (fun l' =>
      bind (transform fuel r) (fun r' => after (AST_Binary op l' r')))
  | AST_Dot e p =>
      bind (transform fuel e) (fun e' => after (AST_Dot e' p))
  | AST_Call st e a =>
      bind (transform fuel e) (fun e' =>
      bind ((fix do_list (l : list AST_Node) : Visit (list AST_Node) :=
               match l with
               | [] => ret []
               | x :: rest =>
                   bind (transform fuel x) (fun x' =>
                   bind (do_list rest) (fun rest' => ret (x' :: rest')))
               end) a)
           (fun a' => after (AST_Call st e' a')))
  | AST_New st e a =>
      bind (transform fuel e) (fun e' =>
      bind ((fix do_list (l : list AST_Node) : Visit (list AST_Node) :=
               match l with
               | [] => ret []
               | x :: rest =>
                   bind (transform fuel x) (fun x' =>
                   bind (do_list rest) (fun rest' => ret (x' :: rest')))
               end) a)
           (fun a' => after (AST_New st e' a')))
  | AST_Function name body =>
      bind ((fix do_list (l : list AST_Node) : Visit (list AST_Node) :=
               match l with
               | [] => ret []
               | x :: rest =>
                   bind (transform fuel x) (fun x' =>
                   bind (do_list rest) (fun rest' => ret (x' :: rest')))
               end) body)
           (fun body' => after (AST_Function name body'))
  | AST_SimpleStatement st b =>
      bind (transform fuel b) (fun b' => after (AST_SimpleStatement st b'))
  | AST_Toplevel body =>
      bind ((fix do_list (l : list AST_Node) : Visit (list AST_Node) :=
               match l with
               | [] => ret []
               | x :: rest =>
                   bind (transform fuel x) (fun x' =>
                   bind (do_list rest) (fun rest' => ret (x' :: rest')))
               end) body)
           (fun body' => after (AST_Toplevel body'))
  | leaf => after leaf
  end.

(** ** The driver *)

(** The unit behind a reference (a reference is always that of a unit
    the run has allocated). *)
Definition deref (d : driver) (ref : nat) : SourceFile :=
  nth ref (heap d) (new_SourceFile "" "").

(** Modelled from the spec: [fromJSON] of the absent sourcefile.js
    restores the declarations that were serialised. *)
Definition fromJSON (d : driver) (c : cached_unit) : SourceFile :=
  match c with
  | Stored sf => sf
  | Live ref => deref d ref
  end.

Definition mark_cached (sf : SourceFile) : SourceFile :=
  mkSourceFile (filename sf) (jsname sf) (packageDecl sf) (classDecls sf)
    (staticDecls sf) (nativeDecls sf) (importDecls sf) (instantiations sf)
    (callSites sf) true (finished sf).

(** [fileCache[jsfilename] = entry]: an entry is an object, and the
    prototype chain of [fileCache], which is [Object.prototype] or an
    earlier entry above it, holds the accessor of [__proto__]. *)
Definition cache_set (fileCache : object cache_entry) (jsfilename : string)
    (entry : cache_entry) : object cache_entry :=
  assign (fun _ _ => SetsPrototype) fileCache jsfilename entry.

(** The unit of an unchanged file, when the cache can be used for [f]. *)
Definition cache_hit (force : bool) (d : driver) (f : source_input)
  : option SourceFile :=
  match lookup (fileCache d) (in_jsfilename f) with
  | Some cachedFile =>
      if negb force && String.eqb (sourceHash cachedFile) (in_sourceHash f)
         && in_cacheable f
      then Some (fromJSON d (sourcefile cachedFile))
      else None
  | None => None
  end.

(** Compression and printing of the transformed tree
    ([ast2.transform(compressor)], [ast2.print(stream)],
    [stream.toString()]). *)
Variable output : AST_Node -> string.

(** The body of [files.forEach] (lines 214-382) for one file that exists
    and parses.
    Of the file system only the cache file is followed: the copy of the
    output that [options.debug] asks for is not. *)
Definition compile_file (force : bool) (fuel : nat) (d : driver)
    (f : source_input) : driver * outcome :=
  match cache_hit force d f with
  | Some sf =>
      (mkDriver (heap d ++ [mark_cached sf])
         (codegen_sources d ++ [length (heap d)]) (fileCache d),
       Continue)
  | None =>
      let ref := length (heap d) in
      let sourcefile := new_SourceFile (in_relativeFilename f) (in_jsfilename f) in
      (* codegen.addSource(sourcefile) comes before the traversal *)
      let sources := (codegen_sources d ++ [ref])%list in
      match transform fuel (in_ast f) sourcefile with
      | (sf', Throw E) =>
          (mkDriver (heap d ++ [sf']) sources (fileCache d),
           Exited (log_error (error_toString E)))
      | (sf', OutOfFuel) =>
          (mkDriver (heap d ++ [sf']) sources (fileCache d), NoFuel)
      | (sf', Ok ast2) =>
          (mkDriver (heap d ++ [finish sf' (output ast2)]) sources
             (cache_set (fileCache d) (in_jsfilename f)
                (mkEntry (in_sourceHash f) (Live ref))),
           Continue)
      end
  end.

(** [files.forEach(...)]: the files in order, until the process exits. *)
Fixpoint compile_files (force : bool) (fuel : nat) (d : driver)
    (files : list source_input) : driver * outcome :=
  match files with
  | [] => (d, Continue)
  | f :: rest =>
      match compile_file force fuel d f with
      | (d', Continue) => compile_files force fuel d' rest
      | stopped => stopped
      end
  end.

(** The content of the cache file: per normalised file name, the digest
    and the unit's data. *)
Definition cache_table : Type := list (string * (string * SourceFile)).

(** [JSON.stringify(fileCache)]: the own properties. *)
Definition stringify (d : driver) : cache_table :=
  map (fun e => (fst e, (sourceHash (snd e), fromJSON d (sourcefile (snd e)))))
      (own (fileCache d)).

(** [fileCache = JSON.parse(fs.readFileSync(fileCacheFn))] when the file
    exists, the empty table otherwise. *)
Definition load_cache (disk : option cache_table) : object cache_entry :=
  match disk with
  | None => empty_object
  | Some table =>
      mkObject
        (map (fun e => (fst e, mkEntry (fst (snd e)) (Stored (snd (snd e)))))
             table)
        None
  end.

(** The callback given to [codegen.generate] (lines 384-392): the table
    written to the cache file, if it writes, and how the process ends. *)
Definition generate_callback (d : driver) (err file : jsval)
  : option cache_table * exit :=
  if truthy err then (None, log_error (ToString err))
  else if truthy file then (Some (stringify d), mkExit 0 None)
  else (None, mkExit 0 None).

(** The backend: the [(err, file)] that [codegen.generate] passes to its
    callback, from the units it was handed. *)
Variable generate : list SourceFile -> jsval * jsval.

(** The compile command from the loading of the cache on: the table it
    writes to the cache file, if it writes, and how the run ends. *)
Definition compile (force : bool) (fuel : nat) (disk : option cache_table)
    (files : list source_input) : option cache_table * outcome :=
  match compile_files force fuel (mkDriver [] [] (load_cache disk)) files with
  | (d, Continue) =>
      let (err, file) := generate (map (deref d) (codegen_sources d)) in
      let (written, e) := generate_callback d err file in
      (written, Exited e)
  | (_, stopped) => (None, stopped)
  end.

(** ** The pieces of the evaluator and of the traversal, by name *)

(** The loop of [makeDictionaryFromArg] over the properties, from the
    object [obj] built so far. *)
Fixpoint resolve_properties
    (toValue : option AST_Node -> AST_Node -> result jsval) (node : AST_Node)
    (ps : list (string * AST_Node)) (obj : object jsval)
  : result (object jsval) :=
  match ps with
  | [] => Ok obj
  | (key, value) :: rest =>
      match toValue (Some value) node with
      | Ok v => resolve_properties toValue node rest (assign proto_write_of obj key v)
      | Throw e => Throw e
      | OutOfFuel => OutOfFuel
      end
  end.

(** The value [evalExpression] reads for a variable that has an
    initialiser: [vars[k].init.value]. *)
Definition initial_value (d : SymbolDef) : jsval :=
  match init d with
  | Some i => value_of i
  | None => JUndefined
  end.

Definition not_proto (k : string) : bool := negb (String.eqb k "__proto__").

(** The prototype of the [scope] object of [evalExpression] once the
    variables are copied: replaced when a variable is called [__proto__]
    and its value is [null] or an object. *)
Definition scope_prototype (vars : list (string * SymbolDef)) : option jsval :=
  match obj_get vars "__proto__" with
  | Some d =>
      if is_object_or_null (initial_value d) then Some (initial_value d) else None
  | None => None
  end.

(** [do_list] of the traversal: the nodes of a list in order. *)
Fixpoint do_list (f : AST_Node -> Visit AST_Node) (l : list AST_Node)
  : Visit (list AST_Node) :=
  match l with
  | [] => ret []
  | x :: rest =>
      bind (f x) (fun x' => bind (do_list f rest) (fun rest' => ret (x' :: rest')))
  end.

Fixpoint do_properties (f : AST_Node -> Visit AST_Node)
    (l : list (string * AST_Node)) : Visit (list (string * AST_Node)) :=
  match l with
  | [] => ret []
  | (k, x) :: rest =>
      bind (f x) (fun x' =>
      bind (do_properties f rest) (fun rest' => ret ((k, x') :: rest')))
  end.

(** The call of the callback on a rebuilt node. *)
Definition after (fuel : nat) (x : AST_Node) : Visit AST_Node :=
  bind (visit fuel x) (fun y =>
    ret (match y with Some replacement => replacement | None => x end)).

(** The names the [switch] of the statement branch has a case for. *)
Definition is_marker_name (name : jsval) : bool :=
  match name with
  | JStr n =>
      String.eqb n "package" || String.eqb n "class" || String.eqb n "static"
      || String.eqb n "native" || String.eqb n "import"
  | _ => false
  end.

(** [callee.scope.find_variable(callee.name)] finds a definition. *)
Definition bound (callee : AST_Node) : bool :=
  match scope_of callee with
  | Some s => has (find_variable (scopes s) (ToString (name_of callee)))
  | None => false
  end.

(** The nodes on which no branch of the callback applies: a statement
    that is not a marker call with an argument, a constructor call whose
    callee has no name or a bound one, a call whose callee has no name, a
    name the pattern matches or a bound one, and every other node. *)
Definition unmatched (n : AST_Node) : bool :=
  match n with
  | AST_SimpleStatement _ body =>
      match expression_of body, args_of body with
      | Some callee, Some (_ :: _) => negb (is_marker_name (name_of callee))
      | _, _ => true
      end
  | AST_New _ callee _ => negb (truthy (name_of callee)) || bound callee
  | AST_Call _ callee _ =>
      negb (truthy (name_of callee))
      || RESERVED_SYMBOLS_test (ToString (name_of callee)) || bound callee
  | _ => true
  end.

(** The trees all of whose nodes are unmatched. *)
Fixpoint inert (n : AST_Node) : bool :=
  unmatched n
  && match n with
     | AST_Array elements => forallb inert elements
     | AST_Object properties => forallb (fun kv => inert (snd kv)) properties
     | AST_Binary _ l r => inert l && inert r
     | AST_Dot e _ => inert e
     | AST_Call _ e a | AST_New _ e a => inert e && forallb inert a
     | AST_Function _ body => forallb inert body
     | AST_SimpleStatement _ b => inert b
     | AST_Toplevel body => forallb inert body
     | _ => true
     end.

(** The nodes the traversal descends into from a node, in the order it
    takes them. *)
Definition children (n : AST_Node) : list AST_Node :=
  match n with
  | AST_Array elements => elements
  | AST_Object properties => map snd properties
  | AST_Binary _ l r => [l; r]
  | AST_Dot e _ => [e]
  | AST_Call _ e a | AST_New _ e a => e :: a
  | AST_Function _ body => body
  | AST_SimpleStatement _ b => [b]
  | AST_Toplevel body => body
  | _ => []
  end.

(** The node rebuilt from what the traversal answered for its children. *)
Definition with_children (n : AST_Node) (cs : list AST_Node) : AST_Node :=
  match n, cs with
  | AST_Array _, _ => AST_Array cs
  | AST_Object properties, _ => AST_Object (combine (map fst properties) cs)
  | AST_Binary op _ _, [l; r] => AST_Binary op l r
  | AST_Dot _ p, [e] => AST_Dot e p
  | AST_Call st _ _, e :: a => AST_Call st e a
  | AST_New st _ _, e :: a => AST_New st e a
  | AST_Function name _, _ => AST_Function name cs
  | AST_SimpleStatement st _, [b] => AST_SimpleStatement st b
  | AST_Toplevel _, _ => AST_Toplevel cs
  | _, _ => n
  end.

(** [marker_failure fuel E n sf sf']: in the traversal of [n] that starts
    with the unit [sf], the constant evaluator throws [E] on the first
    argument of a marker statement, and nothing has failed before; [sf']
    is the unit at that point. The statement is [n] itself, its arguments
    having been traversed, or lies in a child of [n], the children before
    which have been traversed. The evaluator is [toValue] for [package],
    [class], [static] and [import] and [makeDictionaryFromArg] for
    [native]. *)
Inductive marker_failure (fuel : nat) (E : js_error)
  : AST_Node -> SourceFile -> SourceFile -> Prop :=
| failure_of_toValue (st pos p : position) (name : string) (s : scope_id)
    (args : list AST_Node) (arg' : AST_Node) (more' : list AST_Node)
    (sf sf' : SourceFile) :
    In name ["package"; "class"; "static"; "import"] ->
    do_list (transform fuel) args sf = (sf', Ok (arg' :: more')) ->
    toValue fuel (Some arg')
      (AST_SimpleStatement st
         (AST_Call pos (AST_SymbolRef p name s) (arg' :: more')))
    = Throw E ->
    marker_failure fuel E
      (AST_SimpleStatement st (AST_Call pos (AST_SymbolRef p name s) args))
      sf sf'
| failure_of_makeDictionaryFromArg (st pos p : position) (s : scope_id)
    (args : list AST_Node) (arg' : AST_Node) (more' : list AST_Node)
    (sf sf' : SourceFile) :
    do_list (transform fuel) args sf = (sf', Ok (arg' :: more')) ->
    makeDictionaryFromArg fuel arg'
      (AST_Call pos (AST_SymbolRef p "native" s) (arg' :: more'))
    = Throw E ->
    marker_failure fuel E
      (AST_SimpleStatement st (AST_Call pos (AST_SymbolRef p "native" s) args))
      sf sf'
| failure_in_child (n m : AST_Node) (before after : list AST_Node)
    (before' : list AST_Node) (sf sf1 sf2 : SourceFile) :
    children n = (before ++ m :: after)%list ->
    do_list (transform fuel) before sf = (sf1, Ok before') ->
    marker_failure fuel E m sf1 sf2 ->
    marker_failure fuel E n sf sf2.

(** Every entry of [fileCache] holds a unit that bears the name the entry
    is read under; the unit is plain data of the cache file, or a unit
    that this run has allocated. *)
Definition well_keyed (d : driver) : Prop :=
  forall k e,
    lookup (fileCache d) k = Some e ->
    match sourcefile e with
    | Stored sf => jsname sf = k
    | Live ref => ref < length (heap d) /\ jsname (deref d ref) = k
    end.

(** The statement [import("path");] at a position, in scope [s]. *)
Definition import_statement (s : scope_id) (entry : position * string)
  : AST_Node :=
  AST_SimpleStatement (fst entry)
    (AST_Call (fst entry) (AST_SymbolRef (fst entry) "import" s)
       [AST_String (snd entry)]).

(** Unfolds the callback down to the tests it makes on the callee. *)
Ltac run_visit :=
  cbv beta iota delta
    [visit process_marker bind lift ret expression_of args_of name_of
     scope_of truthy ToString has].

(** * Properties *)

(** ** The constant evaluator on literals and arrays *)

(** A literal whose value is truthy resolves to that value. *)
Lemma toValue_truthy_literal (fuel : nat) (value node : AST_Node) :
  elements_of value = None ->
  properties_of value = None ->
  truthy (value_of value) = true ->
  toValue (S fuel) (Some value) node = Ok (value_of value).
Proof.
  intros He Hp Hv. simpl. rewrite He, Hp, Hv. reflexivity.
Qed.

(** An absent value resolves to [null]. *)
Lemma toValue_absent (fuel : nat) (node : AST_Node) :
  toValue (S fuel) None node = Ok JNull.
Proof. reflexivity. Qed.

(** C5 (as the code has it): the literals [0], the empty string, [false]
    and [null] do not resolve to their value; [toValue] tests the value
    for truthiness and answers the AST node itself for them. *)
Theorem toValue_falsy_literal_is_node (fuel : nat) (node : AST_Node) :
  toValue (S fuel) (Some (AST_Number 0)) node = Ok (JNode (AST_Number 0))
  /\ toValue (S fuel) (Some (AST_String "")) node = Ok (JNode (AST_String ""))
  /\ toValue (S fuel) (Some AST_False) node = Ok (JNode AST_False)
  /\ toValue (S fuel) (Some AST_Null) node = Ok (JNode AST_Null).
Proof.
  repeat split; cbn [toValue]; reflexivity.
Qed.

(** An array resolves to the [value] property of each element, in
    order. *)
Lemma toValue_array (fuel : nat) (elements : list AST_Node) (node : AST_Node) :
  toValue (S fuel) (Some (AST_Array elements)) node
  = Ok (JArr (map value_of elements)).
Proof.
  destruct elements; reflexivity.
Qed.

(** ** The message pattern of [evalExpression] *)

Lemma identifier_char_not_blank (c : ascii) :
  is_identifier_char c = true -> " "%char <> c.
Proof.
  intros H E. subst c. vm_compute in H. discriminate H.
Qed.

Lemma word_char_is_identifier_char (c : ascii) :
  is_word_char c = true -> is_identifier_char c = true.
Proof.
  intros H. unfold is_identifier_char. rewrite H. reflexivity.
Qed.

Lemma prefix_not_defined_head (c : ascii) (rest : string) :
  " "%char <> c -> prefix " is not defined" (String c rest) = false.
Proof.
  intros H. cbn [prefix]. destruct (ascii_dec " " c) as [E | _].
  - contradiction.
  - reflexivity.
Qed.

(** On the message of an undefined identifier the pattern matches at the
    last character of the identifier, and nowhere before. *)
Lemma not_defined_exec_identifier (name : string) (c : ascii) :
  all_chars is_identifier_char name = true ->
  is_word_char c = true ->
  not_defined_exec (name ++ String c " is not defined") = Some (String c "").
Proof.
  induction name as [| a name IH]; intros Hn Hc.
  - cbn [append not_defined_exec]. rewrite Hc. reflexivity.
  - cbn [all_chars] in Hn. apply andb_prop in Hn as [Ha Hn].
    cbn [append not_defined_exec].
    assert (Hp : prefix " is not defined"
                   (name ++ String c " is not defined") = false).
    { destruct name as [| b name'].
      - apply prefix_not_defined_head, identifier_char_not_blank,
          word_char_is_identifier_char, Hc.
      - cbn [all_chars] in Hn. apply andb_prop in Hn as [Hb _].
        apply prefix_not_defined_head, identifier_char_not_blank, Hb. }
    rewrite Hp, andb_false_r. apply IH; assumption.
Qed.

(** A message the pattern does not match is passed on unchanged. *)
Lemma evalExpression_catch_other (node : AST_Node) (E : js_error) :
  not_defined_exec (error_message E) = None ->
  evalExpression_catch node E = E.
Proof.
  intros H. unfold evalExpression_catch. rewrite H. reflexivity.
Qed.

(** C6 (as the code has it): when the host reports that the identifier
    [name ++ c] is not defined, [evalExpression] throws an error that names
    the last character [c] of the identifier only, with the file and line
    of [node]. *)
Theorem evalExpression_names_last_character
    (node arg lhs rhs : AST_Node) (operator : string)
    (vars : list (string * SymbolDef)) (scope : object jsval)
    (expr : list jsval) (st : position) (name : string) (c : ascii) :
  expression_variables node = Ok vars ->
  expand_scope vars empty_object [] = Ok (scope, expr) ->
  binary_of arg = Some (lhs, operator, rhs) ->
  start_of node = Some st ->
  all_chars is_identifier_char name = true ->
  is_word_char c = true ->
  eval_apply ("(function(" ++ join "," (map fst (own scope)) ++ "){ return "
              ++ print_to_string lhs ++ operator ++ print_to_string rhs
              ++ "; })") (JObject scope) expr
  = Throw (ReferenceError (name ++ String c " is not defined")) ->
  evalExpression node arg
  = Throw (Error ("can't seem to determine value of '" ++ String c ""
                  ++ "' during import at " ++ file st
                  ++ " on line " ++ decimal (line st))).
Proof.
  intros Hvars Hscope Hbin Hst Hname Hc Hhost.
  unfold evalExpression. rewrite Hvars, Hscope, Hbin, Hhost.
  unfold evalExpression_catch. cbn [error_message].
  rewrite (not_defined_exec_identifier name c Hname Hc), Hst.
  reflexivity.
Qed.

(** A statement node has no [expression]: called with the statement as
    [node], [evalExpression] throws a [TypeError] before it evaluates
    anything. *)
Lemma evalExpression_statement_node (st : position) (body arg : AST_Node) :
  evalExpression (AST_SimpleStatement st body) arg
  = Throw (TypeError "Cannot read property 'scope' of undefined").
Proof. reflexivity. Qed.

(** ** The callback on statements *)

(** A statement whose callee carries a name that the pattern does not
    match is left alone. *)
Lemma visit_statement_not_reserved (fuel : nat) (st : position)
    (body : AST_Node) (sf : SourceFile) :
  (forall callee, expression_of body = Some callee ->
                  RESERVED_SYMBOLS_test (ToString (name_of callee)) = false) ->
  visit fuel (AST_SimpleStatement st body) sf = (sf, Ok None).
Proof.
  intros H. cbn [visit].
  destruct (expression_of body) as [callee |] eqn:He; [| reflexivity].
  destruct (args_of body) as [[| arg rest] |]; try reflexivity.
  rewrite (H callee eq_refl). reflexivity.
Qed.

(** A marker call without argument is left alone. *)
Lemma visit_statement_no_argument (fuel : nat) (st pos : position)
    (callee : AST_Node) (sf : SourceFile) :
  visit fuel (AST_SimpleStatement st (AST_Call pos callee [])) sf = (sf, Ok None).
Proof. reflexivity. Qed.

(** [import("...")] with a non-empty string literal is recorded and the
    statement replaced by the empty statement; the scope of the callee is
    not looked at. *)
Lemma visit_statement_import_literal (fuel : nat) (st pos p : position)
    (s : scope_id) (path : string) (more : list AST_Node) (sf : SourceFile) :
  path <> "" ->
  visit (S fuel)
    (AST_SimpleStatement st
       (AST_Call pos (AST_SymbolRef p "import" s) (AST_String path :: more))) sf
  = (processImport sf
       (AST_SimpleStatement st
          (AST_Call pos (AST_SymbolRef p "import" s) (AST_String path :: more)))
       (JStr path),
     Ok (Some AST_EmptyStatement)).
Proof.
  intros Hpath. apply String.eqb_neq in Hpath.
  cbn. rewrite Hpath. reflexivity.
Qed.

(** [native({foo: "bar"})] is recorded and the statement replaced by the
    empty statement, in every scope table: the statement branch does not
    ask whether [native] is a variable of the program. *)
Lemma visit_statement_native_any_scope (fuel : nat) (st pos p : position)
    (s : scope_id) (sf : SourceFile) :
  visit (S fuel)
    (AST_SimpleStatement st
       (AST_Call pos (AST_SymbolRef p "native" s)
          [AST_Object [("foo", AST_String "bar")]])) sf
  = (processNative sf
       (AST_SimpleStatement st
          (AST_Call pos (AST_SymbolRef p "native" s)
             [AST_Object [("foo", AST_String "bar")]]))
       (JObj [("foo", JStr "bar")]),
     Ok (Some AST_EmptyStatement)).
Proof. reflexivity. Qed.

(** ** The callback on calls *)

(** The rewrite of a call whose callee is an identifier with no binding
    and a name the pattern does not match. *)
Lemma visit_call_unbound (fuel : nat) (pos p : position) (name : string)
    (s : scope_id) (args : list AST_Node) (sf : SourceFile) :
  name <> "" ->
  RESERVED_SYMBOLS_test name = false ->
  find_variable (scopes s) name = None ->
  visit fuel (AST_Call pos (AST_SymbolRef p name s) args) sf
  = (snd (processFunction sf (AST_Call pos (AST_SymbolRef p name s) args) name
            (map print_to_string args)),
     Ok (Some (AST_SymbolConst
                 (next_symbol sf name ++ "("
                  ++ join "," (map print_to_string args) ++ ")")))).
Proof.
  intros Hname Hres Hfind. apply String.eqb_neq in Hname.
  run_visit. rewrite Hname, Hres, Hfind. reflexivity.
Qed.

(** A call whose callee is an identifier with a binding is left alone. *)
Lemma visit_call_bound (fuel : nat) (pos p : position) (name : string)
    (s : scope_id) (args : list AST_Node) (sf : SourceFile) (d : SymbolDef) :
  find_variable (scopes s) name = Some d ->
  visit fuel (AST_Call pos (AST_SymbolRef p name s) args) sf = (sf, Ok None).
Proof.
  intros Hfind. run_visit. rewrite Hfind.
  destruct (negb (name =? "") && negb (RESERVED_SYMBOLS_test name)); reflexivity.
Qed.

(** Every call the callback replaces has an identifier for callee, with a
    name the pattern does not match and no binding. *)
Lemma visit_call_inv (fuel : nat) (pos : position) (callee : AST_Node)
    (args : list AST_Node) (sf sf' : SourceFile) (r : AST_Node) :
  visit fuel (AST_Call pos callee args) sf = (sf', Ok (Some r)) ->
  exists p name s,
    callee = AST_SymbolRef p name s /\ name <> ""
    /\ RESERVED_SYMBOLS_test name = false
    /\ find_variable (scopes s) name = None.
Proof.
  intros H. cbn [visit] in H.
  destruct (truthy (name_of callee)
            && negb (RESERVED_SYMBOLS_test (ToString (name_of callee)))) eqn:Hg;
    [| discriminate H].
  apply andb_prop in Hg as [Ht Hr]. apply negb_true_iff in Hr.
  destruct callee; cbn [scope_of] in H; try discriminate H.
  cbn [name_of ToString truthy] in *.
  exists start, name, scope. repeat split; try assumption.
  - intros ->. discriminate Ht.
  - destruct (find_variable (scopes scope) name); [discriminate H | reflexivity].
Qed.

(** C3 (as the code has it): a call is not rewritten as soon as the name
    of its callee contains one of the reserved words, whether or not the
    name is bound; [classify] and [doimport] are such names. *)
Theorem visit_call_reserved_substring (fuel : nat) (pos p : position)
    (name : string) (s : scope_id) (args : list AST_Node) (sf : SourceFile) :
  RESERVED_SYMBOLS_test name = true ->
  visit fuel (AST_Call pos (AST_SymbolRef p name s) args) sf = (sf, Ok None).
Proof.
  intros Hres. run_visit. rewrite Hres, andb_false_r. reflexivity.
Qed.

(** Every call that the callback rewrites is replaced by a symbol whose
    name is the generated symbol followed by the printed text of the
    arguments the callback is given, joined by commas, between
    parentheses; the call site records the same texts. *)
Lemma visit_call_placeholder (fuel : nat) (pos : position)
    (callee : AST_Node) (args : list AST_Node) (sf sf' : SourceFile)
    (r : AST_Node) :
  visit fuel (AST_Call pos callee args) sf = (sf', Ok (Some r)) ->
  r = AST_SymbolConst
        (next_symbol sf (ToString (name_of callee)) ++ "("
         ++ join "," (map print_to_string args) ++ ")")
  /\ callSites sf'
     = (callSites sf
        ++ [mkCallSite (next_symbol sf (ToString (name_of callee)))
              (ToString (name_of callee)) (map print_to_string args)
              (Some pos)])%list
  /\ instantiations sf' = instantiations sf.
Proof.
  intros H.
  destruct (visit_call_inv _ _ _ _ _ _ _ H)
    as (p & name & s & -> & Hname & Hres & Hfind).
  rewrite (visit_call_unbound fuel pos p name s args sf Hname Hres Hfind) in H.
  injection H as Hsf Hr. subst sf' r.
  cbn [name_of ToString]. repeat split.
Qed.

(** ** The callback on constructor calls *)

(** A constructor call whose callee is an identifier with a binding is
    left alone. *)
Lemma visit_new_bound (fuel : nat) (pos p : position) (name : string)
    (s : scope_id) (args : list AST_Node) (sf : SourceFile) (d : SymbolDef) :
  find_variable (scopes s) name = Some d ->
  visit fuel (AST_New pos (AST_SymbolRef p name s) args) sf = (sf, Ok None).
Proof.
  intros Hfind. run_visit. rewrite Hfind.
  destruct (negb (name =? "")); reflexivity.
Qed.

(** C8: [new Name(...)] with [Name] an identifier that has no binding is
    replaced by a symbol named by the generated symbol followed by an
    empty pair of parentheses; one instantiation {symbol, Name, location}
    is recorded and nothing else changes; the outcome is the same
    whatever the arguments are, so they are not evaluated. *)
Theorem visit_new_unbound (fuel : nat) (pos p : position) (name : string)
    (s : scope_id) (args : list AST_Node) (sf : SourceFile) :
  name <> "" ->
  find_variable (scopes s) name = None ->
  exists sf',
    visit fuel (AST_New pos (AST_SymbolRef p name s) args) sf
    = (sf', Ok (Some (AST_SymbolConst (next_symbol sf name ++ "()"))))
    /\ instantiations sf'
       = (instantiations sf
          ++ [mkInstantiation (next_symbol sf name) name (Some pos)])%list
    /\ callSites sf' = callSites sf
    /\ (packageDecl sf', classDecls sf', staticDecls sf', nativeDecls sf',
        importDecls sf')
       = (packageDecl sf, classDecls sf, staticDecls sf, nativeDecls sf,
          importDecls sf)
    /\ forall args',
         visit fuel (AST_New pos (AST_SymbolRef p name s) args') sf
         = (sf', Ok (Some (AST_SymbolConst (next_symbol sf name ++ "()")))).
Proof.
  intros Hname Hfind. apply String.eqb_neq in Hname.
  eexists. split; [| split; [| split; [| split]]].
  - run_visit. rewrite Hname, Hfind. cbn [negb processNewClass]. reflexivity.
  - reflexivity.
  - reflexivity.
  - reflexivity.
  - intros args'. run_visit. rewrite Hname, Hfind. reflexivity.
Qed.

(** ** Callees that are not identifiers *)

(** A call or constructor call whose callee has no name (a member
    expression, a call, a literal, an anonymous function) is left alone. *)
Lemma visit_callee_without_name (fuel : nat) (pos : position)
    (callee : AST_Node) (args : list AST_Node) (sf : SourceFile) :
  truthy (name_of callee) = false ->
  visit fuel (AST_Call pos callee args) sf = (sf, Ok None)
  /\ visit fuel (AST_New pos callee args) sf = (sf, Ok None).
Proof.
  intros H. cbn [visit]. rewrite H. split; reflexivity.
Qed.

Lemma visit_member_callee (fuel : nat) (pos : position) (object : AST_Node)
    (property : string) (args : list AST_Node) (sf : SourceFile) :
  visit fuel (AST_Call pos (AST_Dot object property) args) sf = (sf, Ok None)
  /\ visit fuel (AST_New pos (AST_Dot object property) args) sf = (sf, Ok None).
Proof.
  apply visit_callee_without_name. reflexivity.
Qed.

(** C10 (as the code has it): a named function expression in callee
    position is not an identifier, yet the callback does not leave the call
    alone: it finds a name on the callee, reads the scope the callee does
    not have and throws. *)
Theorem visit_named_function_callee_throws (fuel : nat) (pos : position)
    (f : string) (body args : list AST_Node) (sf : SourceFile) :
  visit fuel (AST_Call pos (AST_Function (Some f) body) args) sf
  = (sf, Throw (TypeError "Cannot call method 'find_variable' of undefined"))
  /\ visit fuel (AST_New pos (AST_Function (Some f) body) args) sf
     = (sf, Throw (TypeError "Cannot call method 'find_variable' of undefined")).
Proof.
  split; run_visit; reflexivity.
Qed.

(** The same happens on a callee that is a placeholder of an earlier
    rewrite: it was built from a name alone. *)
Lemma visit_placeholder_callee_throws (fuel : nat) (pos : position)
    (name : string) (args : list AST_Node) (sf : SourceFile) :
  name <> "" ->
  visit fuel (AST_New pos (AST_SymbolConst name) args) sf
  = (sf, Throw (TypeError "Cannot call method 'find_variable' of undefined")).
Proof.
  intros Hname. apply String.eqb_neq in Hname.
  run_visit. rewrite Hname. reflexivity.
Qed.

(** ** A failing traversal *)

(** An identifier argument that no scope declares: the traversal of the
    marker statement throws the error of [toValue], whose message holds
    the name, the file, the line and the column of the identifier. *)
Lemma transform_import_unresolved (fuel : nat) (st pos p q : position)
    (s s' : scope_id) (x : string) (sf : SourceFile) :
  x <> "" ->
  find_variable (scopes s') x = None ->
  transform (S fuel)
    (AST_SimpleStatement st
       (AST_Call pos (AST_SymbolRef p "import" s) [AST_SymbolRef q x s'])) sf
  = (sf, Throw (Error ("Couldn't find variable named: " ++ x ++ " at "
                       ++ file q ++ " on " ++ decimal (line q) ++ ":"
                       ++ decimal (col q)))).
Proof.
  intros Hx Hfind. apply String.eqb_neq in Hx.
  cbn. rewrite Hx, Hfind. reflexivity.
Qed.

Lemma compile_files_app (force : bool) (fuel : nat) (d : driver)
    (before rest : list source_input) :
  compile_files force fuel d (before ++ rest)
  = match compile_files force fuel d before with
    | (d1, Continue) => compile_files force fuel d1 rest
    | stopped => stopped
    end.
Proof.
  revert d. induction before as [| f before IH]; intros d.
  - reflexivity.
  - cbn [app compile_files].
    destruct (compile_file force fuel d f) as [d' [| e |]]; auto.
Qed.

(** The file whose traversal throws: its unit has been allocated and
    handed to the backend, the error text is reported and the process
    exits; [fileCache] is as it was. *)
Lemma compile_file_throw (force : bool) (fuel : nat) (d : driver)
    (f : source_input) (sf' : SourceFile) (E : js_error) :
  cache_hit force d f = None ->
  transform fuel (in_ast f)
    (new_SourceFile (in_relativeFilename f) (in_jsfilename f)) = (sf', Throw E) ->
  compile_file force fuel d f
  = (mkDriver (heap d ++ [sf']) (codegen_sources d ++ [length (heap d)])
       (fileCache d),
     Exited (log_error (error_toString E))).
Proof.
  intros Hhit Hthrow. unfold compile_file. rewrite Hhit, Hthrow. reflexivity.
Qed.

Lemma compile_files_abort (force : bool) (fuel : nat) (d d1 : driver)
    (before rest : list source_input) (f : source_input) (sf' : SourceFile)
    (E : js_error) :
  compile_files force fuel d before = (d1, Continue) ->
  cache_hit force d1 f = None ->
  transform fuel (in_ast f)
    (new_SourceFile (in_relativeFilename f) (in_jsfilename f)) = (sf', Throw E) ->
  compile_files force fuel d (before ++ f :: rest)
  = (mkDriver (heap d1 ++ [sf']) (codegen_sources d1 ++ [length (heap d1)])
       (fileCache d1),
     Exited (log_error (error_toString E))).
Proof.
  intros Hbefore Hhit Hthrow.
  rewrite compile_files_app, Hbefore. cbn [compile_files].
  rewrite (compile_file_throw force fuel d1 f sf' E Hhit Hthrow). reflexivity.
Qed.

(** ** Files that compile *)

(** A cache hit hands the restored unit, marked as cached, to the backend
    and leaves [fileCache] as it is. *)
Lemma compile_file_cache_hit (force : bool) (fuel : nat) (d : driver)
    (f : source_input) (sf : SourceFile) :
  cache_hit force d f = Some sf ->
  compile_file force fuel d f
  = (mkDriver (heap d ++ [mark_cached sf])
       (codegen_sources d ++ [length (heap d)]) (fileCache d),
     Continue).
Proof.
  intros Hhit. unfold compile_file. rewrite Hhit. reflexivity.
Qed.

(** A file whose traversal succeeds is finished with the printed text and
    entered in [fileCache] under its normalised name, with its digest. *)
Lemma compile_file_recorded (force : bool) (fuel : nat) (d : driver)
    (f : source_input) (sf' : SourceFile) (ast2 : AST_Node) :
  cache_hit force d f = None ->
  transform fuel (in_ast f)
    (new_SourceFile (in_relativeFilename f) (in_jsfilename f)) = (sf', Ok ast2) ->
  compile_file force fuel d f
  = (mkDriver (heap d ++ [finish sf' (output ast2)])
       (codegen_sources d ++ [length (heap d)])
       (cache_set (fileCache d) (in_jsfilename f)
          (mkEntry (in_sourceHash f) (Live (length (heap d))))),
     Continue).
Proof.
  intros Hhit Hok. unfold compile_file. rewrite Hhit, Hok. reflexivity.
Qed.

(** With [options.force] no file is a cache hit. *)
Lemma cache_hit_force (d : driver) (f : source_input) :
  cache_hit true d f = None.
Proof.
  unfold cache_hit. destruct (lookup (fileCache d) (in_jsfilename f)); reflexivity.
Qed.

(** ** The end of the run *)

(** C9: the callback of [generate] writes the cache table exactly when it
    is given no error and a non-empty changed-file marker, and what it
    writes is [fileCache]; given an error it writes nothing and the process
    ends with the non-zero status of [log.error]; given none the process
    ends with status 0. *)
Theorem generate_callback_flush (d : driver) (err file : jsval) :
  ((exists table, fst (generate_callback d err file) = Some table)
   <-> truthy err = false /\ truthy file = true)
  /\ (truthy err = true ->
      fst (generate_callback d err file) = None
      /\ status (snd (generate_callback d err file)) <> 0%Z)
  /\ (truthy err = false ->
      status (snd (generate_callback d err file)) = 0%Z)
  /\ (forall table, fst (generate_callback d err file) = Some table ->
                    table = stringify d).
Proof.
  unfold generate_callback.
  destruct (truthy err) eqn:He; destruct (truthy file) eqn:Hf; cbn.
  all: repeat split; intros; try discriminate; try congruence.
  all: try (match goal with H : exists _, _ |- _ => destruct H; discriminate end).
  all: try (match goal with H : _ /\ _ |- _ => destruct H; discriminate end).
  all: eexists; reflexivity.
Qed.

(** A run in which every file is a cache hit and the backend reports no
    changed file writes nothing. *)
Lemma compile_no_change_no_write (force : bool) (fuel : nat)
    (disk : option cache_table) (files : list source_input) (d : driver)
    (err file : jsval) :
  compile_files force fuel (mkDriver [] [] (load_cache disk)) files
  = (d, Continue) ->
  generate (map (deref d) (codegen_sources d)) = (err, file) ->
  truthy file = false ->
  fst (compile force fuel disk files) = None.
Proof.
  intros Hrun Hgen Hfile. unfold compile. rewrite Hrun, Hgen.
  unfold generate_callback. rewrite Hfile.
  destruct (truthy err); reflexivity.
Qed.

(** ** Dictionaries *)

Lemma obj_get_obj_set_eq (A : Type) (o : list (string * A)) (k : string) (v : A) :
  obj_get (obj_set o k v) k = Some v.
Proof.
  induction o as [| [k' v'] rest IH]; cbn [obj_set obj_get].
  - rewrite String.eqb_refl. reflexivity.
  - destruct (String.eqb k k') eqn:E; cbn [obj_get].
    + rewrite String.eqb_refl. reflexivity.
    + rewrite E. exact IH.
Qed.

Lemma obj_get_obj_set_neq (A : Type) (o : list (string * A)) (k k' : string)
    (v : A) :
  k <> k' -> obj_get (obj_set o k v) k' = obj_get o k'.
Proof.
  intros Hk. induction o as [| [k0 v0] rest IH]; cbn [obj_set obj_get].
  - apply not_eq_sym in Hk. apply String.eqb_neq in Hk. rewrite Hk. reflexivity.
  - destruct (String.eqb k k0) eqn:E; cbn [obj_get].
    + apply String.eqb_eq in E. subst k0.
      apply not_eq_sym in Hk. apply String.eqb_neq in Hk. rewrite Hk. reflexivity.
    + rewrite IH. reflexivity.
Qed.

Lemma obj_get_obj_set (A : Type) (o : list (string * A)) (k k' : string) (v : A) :
  obj_get (obj_set o k v) k'
  = if String.eqb k k' then Some v else obj_get o k'.
Proof.
  destruct (String.eqb k k') eqn:E.
  - apply String.eqb_eq in E. subst k'. apply obj_get_obj_set_eq.
  - apply String.eqb_neq in E. apply obj_get_obj_set_neq, E.
Qed.

Lemma obj_set_fresh (A : Type) (o : list (string * A)) (k : string) (v : A) :
  obj_get o k = None -> obj_set o k v = (o ++ [(k, v)])%list.
Proof.
  induction o as [| [k' v'] rest IH]; cbn [obj_get obj_set app]; intros H.
  - reflexivity.
  - destruct (String.eqb k k'); [discriminate H |].
    rewrite (IH H). reflexivity.
Qed.

Lemma obj_get_none_iff (A : Type) (o : list (string * A)) (k : string) :
  obj_get o k = None <-> ~ In k (map fst o).
Proof.
  induction o as [| [k' v'] rest IH]; cbn [obj_get map fst In].
  - split; [intros _ [] | reflexivity].
  - destruct (String.eqb k k') eqn:E.
    + apply String.eqb_eq in E. subst k'. split; [discriminate |].
      intros H. exfalso. apply H. left. reflexivity.
    + apply String.eqb_neq in E. rewrite IH. split.
      * intros H [Hk | Hin]; [apply E; symmetry; exact Hk | exact (H Hin)].
      * intros H Hin. apply H. right. exact Hin.
Qed.

Lemma obj_set_keys (A : Type) (o : list (string * A)) (k k' : string) (v : A) :
  In k' (map fst (obj_set o k v)) <-> k' = k \/ In k' (map fst o).
Proof.
  induction o as [| [k0 v0] rest IH]; cbn [obj_set map fst In].
  - split; [intros [H | []]; left; symmetry; exact H
           | intros [H | []]; left; symmetry; exact H].
  - destruct (String.eqb k k0) eqn:E; cbn [map fst In].
    + apply String.eqb_eq in E. subst k0. split.
      * intros [H | H]; [left; symmetry; exact H | right; right; exact H].
      * intros [H | [H | H]];
          [left; symmetry; exact H | left; exact H | right; exact H].
    + rewrite IH. split.
      * intros [H | [H | H]];
          [right; left; exact H | left; exact H | right; right; exact H].
      * intros [H | [H | H]];
          [right; left; exact H | left; exact H | right; right; exact H].
Qed.

Lemma obj_set_NoDup (A : Type) (o : list (string * A)) (k : string) (v : A) :
  NoDup (map fst o) -> NoDup (map fst (obj_set o k v)).
Proof.
  induction o as [| [k0 v0] rest IH]; cbn [obj_set map fst]; intros H.
  - constructor; [intros [] | constructor].
  - inversion H as [| x l Hnot Hrest]; subst.
    destruct (String.eqb k k0) eqn:E; cbn [map fst].
    + apply String.eqb_eq in E. subst k0. constructor; assumption.
    + apply String.eqb_neq in E. constructor; [| apply IH; exact Hrest].
      rewrite obj_set_keys. intros [Hk | Hin]; [apply E; symmetry; exact Hk |].
      exact (Hnot Hin).
Qed.

(** ** Assignments *)

Lemma assign_get_neq (A : Type) (on_proto : option A -> A -> proto_write)
    (o : object A) (k k' : string) (v : A) :
  k <> k' -> obj_get (own (assign on_proto o k v)) k' = obj_get (own o) k'.
Proof.
  intros Hk. unfold assign.
  destruct (has (obj_get (own o) k) || negb (String.eqb k "__proto__")).
  - apply obj_get_obj_set_neq, Hk.
  - destruct (on_proto (proto o) v); cbn [own]; try reflexivity.
    apply obj_get_obj_set_neq, Hk.
Qed.

Lemma assign_get_eq (A : Type) (on_proto : option A -> A -> proto_write)
    (o : object A) (k : string) (v : A) :
  k <> "__proto__" -> obj_get (own (assign on_proto o k v)) k = Some v.
Proof.
  intros Hk. apply String.eqb_neq in Hk. unfold assign.
  rewrite Hk, orb_true_r. apply obj_get_obj_set_eq.
Qed.

(** An assignment creates no other key than the one assigned, and keeps
    every key. *)
Lemma assign_own_keys (A : Type) (on_proto : option A -> A -> proto_write)
    (o : object A) (k k' : string) (v : A) :
  (In k' (map fst (own (assign on_proto o k v)))
   -> k' = k \/ In k' (map fst (own o)))
  /\ (In k' (map fst (own o)) -> In k' (map fst (own (assign on_proto o k v))))
  /\ (k <> "__proto__" -> In k (map fst (own (assign on_proto o k v)))).
Proof.
  unfold assign. split; [| split].
  - destruct (has (obj_get (own o) k) || negb (String.eqb k "__proto__")).
    + cbn [own]. intros H. exact (proj1 (obj_set_keys _ _ _ _ _) H).
    + destruct (on_proto (proto o) v); cbn [own]; intros H;
        try (right; exact H).
      exact (proj1 (obj_set_keys _ _ _ _ _) H).
  - intros H.
    destruct (has (obj_get (own o) k) || negb (String.eqb k "__proto__")).
    + cbn [own]. apply (proj2 (obj_set_keys _ _ _ _ _)). right. exact H.
    + destruct (on_proto (proto o) v); cbn [own]; try exact H.
      apply (proj2 (obj_set_keys _ _ _ _ _)). right. exact H.
  - intros Hk. apply String.eqb_neq in Hk. rewrite Hk, orb_true_r.
    cbn [own]. apply (proj2 (obj_set_keys _ _ _ _ _)). left. reflexivity.
Qed.

Lemma assign_NoDup (A : Type) (on_proto : option A -> A -> proto_write)
    (o : object A) (k : string) (v : A) :
  NoDup (map fst (own o)) -> NoDup (map fst (own (assign on_proto o k v))).
Proof.
  intros H. unfold assign.
  destruct (has (obj_get (own o) k) || negb (String.eqb k "__proto__")).
  - apply obj_set_NoDup, H.
  - destruct (on_proto (proto o) v); cbn [own]; try exact H.
    apply obj_set_NoDup, H.
Qed.

(** The entry written under a name is the one read under it, and the
    reads under the other names are as before. *)
Lemma lookup_cache_set (o : object cache_entry) (k k' : string)
    (e : cache_entry) :
  lookup (cache_set o k e) k'
  = if String.eqb k k' then Some e else lookup o k'.
Proof.
  clear scopes print_to_string eval_apply symbol_name output generate.
  unfold cache_set, assign, lookup.
  destruct (String.eqb k k') eqn:E.
  - apply String.eqb_eq in E. subst k'.
    destruct (obj_get (own o) k) as [x |] eqn:Hown; cbn [has orb].
    + cbn [own]. rewrite obj_get_obj_set_eq. reflexivity.
    + destruct (String.eqb k "__proto__") eqn:Hp; cbn [negb own proto].
      * rewrite Hown. reflexivity.
      * rewrite obj_get_obj_set_eq. reflexivity.
  - apply String.eqb_neq in E.
    destruct (has (obj_get (own o) k) || negb (String.eqb k "__proto__")) eqn:Hb;
      cbn [own proto].
    + rewrite (obj_get_obj_set_neq _ _ _ _ _ E). reflexivity.
    + apply orb_false_elim in Hb as [_ Hp]. apply negb_false_iff in Hp.
      apply String.eqb_eq in Hp. subst k.
      destruct (obj_get (own o) k'); [reflexivity |].
      apply not_eq_sym in E. apply String.eqb_neq in E. rewrite E. reflexivity.
Qed.

(** ** Object literals *)

Lemma makeDictionaryFromArg_properties (fuel : nat)
    (ps : list (string * AST_Node)) (node : AST_Node) :
  makeDictionaryFromArg fuel (AST_Object ps) node
  = match resolve_properties (toValue fuel) node ps empty_object with
    | Ok obj => Ok (JObject obj)
    | Throw e => Throw e
    | OutOfFuel => OutOfFuel
    end.
Proof.
  unfold makeDictionaryFromArg, makeDictionaryFromArg_with.
  cbn [properties_of]. generalize (@empty_object jsval) as obj.
  induction ps as [| [key value] rest IH]; intros obj.
  - reflexivity.
  - cbn [resolve_properties].
    destruct (toValue fuel (Some value) node); [apply IH | reflexivity | reflexivity].
Qed.

Lemma resolve_properties_keys
    (tv : option AST_Node -> AST_Node -> result jsval) (node : AST_Node)
    (ps : list (string * AST_Node)) :
  forall obj o,
    resolve_properties tv node ps obj = Ok o ->
    (forall k, In k (map fst (own o))
               -> In k (map fst (own obj)) \/ In k (map fst ps))
    /\ (forall k, In k (map fst (own obj)) -> In k (map fst (own o)))
    /\ (forall k, k <> "__proto__" -> In k (map fst ps)
                  -> In k (map fst (own o)))
    /\ (NoDup (map fst (own obj)) -> NoDup (map fst (own o))).
Proof.
  clear scopes print_to_string eval_apply symbol_name output generate.
  induction ps as [| [key value] rest IH]; intros obj o H;
    cbn [resolve_properties] in H.
  - injection H as <-. repeat split; try (intros; assumption).
    + intros k Hk. left. exact Hk.
    + intros k _ [].
  - destruct (tv (Some value) node) as [v | e |]; try discriminate H.
    destruct (IH _ _ H) as (Hfrom & Hkeep & Hall & Hdup).
    destruct (assign_own_keys _ proto_write_of obj key) with (k' := key) (v := v)
      as (_ & _ & Hnew).
    repeat split.
    + intros k Hk. cbn [map fst In]. destruct (Hfrom k Hk) as [Hin | Hin].
      * destruct (assign_own_keys _ proto_write_of obj key k v) as (Hsub & _ & _).
        destruct (Hsub Hin) as [-> | Hobj]; [right; left; reflexivity | left; exact Hobj].
      * right. right. exact Hin.
    + intros k Hk. apply Hkeep.
      destruct (assign_own_keys _ proto_write_of obj key k v) as (_ & Hin & _).
      exact (Hin Hk).
    + intros k Hk [E | Hin]; cbn [fst] in *.
      * subst key. apply Hkeep, Hnew, Hk.
      * exact (Hall k Hk Hin).
    + intros Hobj. apply Hdup, assign_NoDup, Hobj.
Qed.

Lemma resolve_properties_untouched
    (tv : option AST_Node -> AST_Node -> result jsval) (node : AST_Node)
    (ps : list (string * AST_Node)) (key : string) :
  ~ In key (map fst ps) ->
  forall obj o,
    resolve_properties tv node ps obj = Ok o ->
    obj_get (own o) key = obj_get (own obj) key.
Proof.
  induction ps as [| [k value] rest IH]; intros Hnot obj o H;
    cbn [resolve_properties] in H.
  - injection H as <-. reflexivity.
  - destruct (tv (Some value) node) as [v | e |]; try discriminate H.
    cbn [map fst In] in Hnot.
    rewrite (IH (fun Hin => Hnot (or_intror Hin)) _ _ H).
    apply assign_get_neq. intros Hk. apply Hnot. left. exact Hk.
Qed.

Lemma resolve_properties_last
    (tv : option AST_Node -> AST_Node -> result jsval) (node : AST_Node)
    (before rest : list (string * AST_Node)) (key : string) (value : AST_Node)
    (v : jsval) :
  key <> "__proto__" ->
  ~ In key (map fst rest) ->
  tv (Some value) node = Ok v ->
  forall obj o,
    resolve_properties tv node (before ++ (key, value) :: rest) obj = Ok o ->
    obj_get (own o) key = Some v.
Proof.
  intros Hkey Hnot Hv.
  induction before as [| [k x] before IH]; intros obj o H;
    cbn [app resolve_properties] in H.
  - rewrite Hv in H.
    rewrite (resolve_properties_untouched tv node rest key Hnot _ _ H).
    apply assign_get_eq, Hkey.
  - destruct (tv (Some x) node) as [w | e |]; try discriminate H.
    exact (IH _ _ H).
Qed.

(** A key [__proto__] whose value resolves to a primitive leaves the
    object as it is. *)
Lemma resolve_properties_proto_primitive
    (tv : option AST_Node -> AST_Node -> result jsval) (node : AST_Node)
    (ps : list (string * AST_Node)) :
  (forall value w, In ("__proto__", value) ps -> tv (Some value) node = Ok w
                   -> is_object_or_null w = false) ->
  forall obj o,
    proto obj = None ->
    obj_get (own obj) "__proto__" = None ->
    resolve_properties tv node ps obj = Ok o ->
    proto o = None /\ obj_get (own o) "__proto__" = None.
Proof.
  clear scopes print_to_string eval_apply symbol_name output generate.
  induction ps as [| [key value] rest IH]; intros Hprim obj o Hproto Hown H;
    cbn [resolve_properties] in H.
  - injection H as <-. split; assumption.
  - destruct (tv (Some value) node) as [v | e |] eqn:Hv; try discriminate H.
    refine (IH (fun value' w Hin => Hprim value' w (or_intror Hin)) _ _ _ _ H).
    + unfold assign. destruct (String.eqb key "__proto__") eqn:Hk.
      * apply String.eqb_eq in Hk. subst key. rewrite Hown, Hproto.
        cbn [has orb negb proto_write_of].
        rewrite (Hprim value v (or_introl eq_refl) Hv). exact Hproto.
      * rewrite orb_true_r. exact Hproto.
    + destruct (String.eqb key "__proto__") eqn:Hk.
      * apply String.eqb_eq in Hk. subst key. unfold assign.
        rewrite Hown, Hproto. cbn [has orb negb proto_write_of].
        rewrite (Hprim value v (or_introl eq_refl) Hv). exact Hown.
      * apply String.eqb_neq in Hk. rewrite assign_get_neq; assumption.
Qed.

(** X10: the object an object literal resolves to has no key twice and
    no key that the literal does not have, and it has every key of the
    literal but, possibly, [__proto__]: written with a primitive value,
    that key gives no property and leaves the prototype alone. *)
Theorem makeDictionaryFromArg_keys (fuel : nat) (ps : list (string * AST_Node))
    (node : AST_Node) (r : jsval) :
  makeDictionaryFromArg fuel (AST_Object ps) node = Ok r ->
  exists o,
    r = JObject o
    /\ NoDup (map fst (own o))
    /\ (forall k, In k (map fst (own o)) -> In k (map fst ps))
    /\ (forall k, k <> "__proto__" -> In k (map fst ps)
                  -> In k (map fst (own o)))
    /\ ((forall value w, In ("__proto__", value) ps
                         -> toValue fuel (Some value) node = Ok w
                         -> is_object_or_null w = false)
        -> r = JObj (own o) /\ ~ In "__proto__" (map fst (own o))).
Proof.
  rewrite makeDictionaryFromArg_properties.
  destruct (resolve_properties (toValue fuel) node ps empty_object)
    as [o | e |] eqn:H; try discriminate.
  intros E. injection E as <-. exists o.
  destruct (resolve_properties_keys _ _ _ _ _ H) as (Hfrom & _ & Hall & Hdup).
  split; [reflexivity |]. split; [apply Hdup; constructor |].
  split; [| split].
  - intros k Hk. destruct (Hfrom k Hk) as [[] | Hin]. exact Hin.
  - exact Hall.
  - intros Hprim.
    destruct (resolve_properties_proto_primitive _ node ps Hprim empty_object o
                eq_refl eq_refl H) as [Hproto Hown].
    split.
    + unfold JObject. rewrite Hproto. reflexivity.
    + apply obj_get_none_iff, Hown.
Qed.

(** X11: when a key other than [__proto__] is written several times in
    an object literal, the object holds the value of the last of them. *)
Theorem makeDictionaryFromArg_last_wins (fuel : nat)
    (before rest : list (string * AST_Node)) (key : string) (value : AST_Node)
    (node : AST_Node) (r v : jsval) :
  key <> "__proto__" ->
  ~ In key (map fst rest) ->
  toValue fuel (Some value) node = Ok v ->
  makeDictionaryFromArg fuel (AST_Object (before ++ (key, value) :: rest)) node
  = Ok r ->
  exists o, r = JObject o /\ obj_get (own o) key = Some v.
Proof.
  intros Hkey Hnot Hv. rewrite makeDictionaryFromArg_properties.
  destruct (resolve_properties (toValue fuel) node
              (before ++ (key, value) :: rest) empty_object) as [o | e |] eqn:H;
    try discriminate.
  intros E. injection E as <-. exists o. split; [reflexivity |].
  exact (resolve_properties_last _ node before rest key value v Hkey Hnot Hv _ _ H).
Qed.

(** X12: [native(...)] with a first argument that is not an object
    literal (a string, an identifier, an array) throws a [TypeError] and
    records nothing: the argument is given to [makeDictionaryFromArg] as it
    is. *)
Theorem visit_native_needs_object_literal (fuel : nat) (st pos p : position)
    (s : scope_id) (arg : AST_Node) (more : list AST_Node) (sf : SourceFile) :
  properties_of arg = None ->
  visit fuel
    (AST_SimpleStatement st
       (AST_Call pos (AST_SymbolRef p "native" s) (arg :: more))) sf
  = (sf, Throw (TypeError "Cannot call method 'forEach' of undefined")).
Proof.
  intros H. cbn. unfold makeDictionaryFromArg, makeDictionaryFromArg_with.
  rewrite H. reflexivity.
Qed.

(** ** Identifiers *)

(** X13: an identifier that no scope declares makes [toValue] throw an
    error that holds its name, file, line and column; an identifier
    declared without initialiser resolves to [null]. *)
Theorem toValue_identifier_edges (fuel : nat) (p : position) (x : string)
    (s : scope_id) (node : AST_Node) :
  x <> "" ->
  (find_variable (scopes s) x = None ->
   toValue (S fuel) (Some (AST_SymbolRef p x s)) node
   = Throw (Error ("Couldn't find variable named: " ++ x ++ " at " ++ file p
                   ++ " on " ++ decimal (line p) ++ ":" ++ decimal (col p))))
  /\ (forall d, find_variable (scopes s) x = Some d -> init d = None ->
                toValue (S (S fuel)) (Some (AST_SymbolRef p x s)) node = Ok JNull).
Proof.
  intros Hx. apply String.eqb_neq in Hx. split.
  - intros Hfind. cbn. rewrite Hx, Hfind. reflexivity.
  - intros d Hfind Hinit. cbn. rewrite Hx, Hfind, Hinit. reflexivity.
Qed.

(** X14: an identifier initialised by itself is never resolved: whatever
    the depth allowed, [toValue] is still following the initialiser. *)
Theorem toValue_self_reference (p q : position) (x : string) (s : scope_id)
    (d : SymbolDef) (node : AST_Node) :
  x <> "" ->
  find_variable (scopes s) x = Some d ->
  init d = Some (AST_SymbolRef q x s) ->
  forall fuel, toValue fuel (Some (AST_SymbolRef p x s)) node = OutOfFuel.
Proof.
  intros Hx Hfind Hinit fuel. apply String.eqb_neq in Hx.
  revert p. induction fuel as [| fuel IH]; intros p.
  - reflexivity.
  - cbn. rewrite Hx, Hfind, Hinit. cbn [negb]. apply IH.
Qed.

(** ** The scope given to the host *)

Lemma expand_scope_missing (vars : list (string * SymbolDef)) (k : string)
    (d : SymbolDef) :
  In (k, d) vars -> init d = None ->
  forall scope expr,
    expand_scope vars scope expr
    = Throw (TypeError "Cannot read property 'value' of undefined").
Proof.
  intros Hin Hinit.
  induction vars as [| [k' d'] rest IH]; intros scope expr; [destruct Hin |].
  cbn [expand_scope]. destruct Hin as [E | Hin].
  - injection E as -> ->. rewrite Hinit. reflexivity.
  - destruct (init d'); [apply IH, Hin | reflexivity].
Qed.

Lemma filter_not_proto_keys (A : Type) (l : list (string * A)) :
  map fst (filter (fun kv => not_proto (fst kv)) l)
  = filter not_proto (map fst l).
Proof.
  induction l as [| [k v] l IH]; cbn [filter map fst].
  - reflexivity.
  - destruct (not_proto k); cbn [map fst]; rewrite IH; reflexivity.
Qed.

Lemma filter_not_proto_absent (A : Type) (l : list (string * A)) :
  ~ In "__proto__" (map fst l) ->
  filter (fun kv => not_proto (fst kv)) l = l.
Proof.
  induction l as [| [k v] l IH]; cbn [filter map fst In]; intros H.
  - reflexivity.
  - unfold not_proto at 1.
    destruct (String.eqb k "__proto__") eqn:E; cbn [negb].
    + apply String.eqb_eq in E. exfalso. apply H. left. exact E.
    + rewrite IH; [reflexivity |]. intros Hin. apply H. right. exact Hin.
Qed.

(** The object and the values the loop ends with: a property for each
    variable but [__proto__], a value for each variable. *)
Lemma expand_scope_all (vars : list (string * SymbolDef)) :
  NoDup (map fst vars) ->
  (forall k d, In (k, d) vars -> init d <> None) ->
  forall scope expr,
    (forall k, In k (map fst vars) -> obj_get (own scope) k = None) ->
    (In "__proto__" (map fst vars) -> proto scope = None) ->
    expand_scope vars scope expr
    = Ok (mkObject
            (own scope
             ++ filter (fun kv => not_proto (fst kv))
                  (map (fun kd => (fst kd, initial_value (snd kd))) vars))
            (match scope_prototype vars with
             | Some p => Some p
             | None => proto scope
             end),
          (expr ++ map (fun kd => initial_value (snd kd)) vars))%list.
Proof.
  induction vars as [| [k d] rest IH]; intros Hdup Hinit scope expr Hfresh Hproto.
  - cbn. rewrite !app_nil_r. destruct scope; reflexivity.
  - cbn [expand_scope map fst snd filter].
    destruct (init d) as [i |] eqn:Hi;
      [| exfalso; apply (Hinit k d); [left; reflexivity | exact Hi]].
    inversion Hdup as [| x l Hnot Hrest]; subst.
    assert (Hv : initial_value d = value_of i)
      by (unfold initial_value; rewrite Hi; reflexivity).
    assert (Hinit' : forall k' d', In (k', d') rest -> init d' <> None)
      by (intros k' d' Hin; apply (Hinit k' d'); right; exact Hin).
    unfold scope_prototype, not_proto at 1. cbn [obj_get].
    rewrite (String.eqb_sym "__proto__" k).
    destruct (String.eqb k "__proto__") eqn:Hk; cbn [negb].
    + (* the variable is called __proto__ *)
      apply String.eqb_eq in Hk. subst k.
      assert (Hrestp : obj_get rest "__proto__" = None)
        by (apply obj_get_none_iff; exact Hnot).
      unfold assign.
      rewrite (Hfresh "__proto__" (or_introl eq_refl)),
        (Hproto (or_introl eq_refl)).
      cbn [has orb negb String.eqb Ascii.eqb Bool.eqb andb proto_write_of].
      rewrite Hv.
      destruct (is_object_or_null (value_of i)) eqn:Ho.
      * rewrite IH; try assumption.
        -- unfold scope_prototype. rewrite Hrestp. cbn [own proto].
           rewrite <- !app_assoc. reflexivity.
        -- cbn [own]. intros k' Hin. apply Hfresh. right. exact Hin.
        -- intros Hin. exfalso. exact (Hnot Hin).
      * rewrite IH; try assumption.
        -- unfold scope_prototype. rewrite Hrestp.
           rewrite (Hproto (or_introl eq_refl)).
           rewrite <- !app_assoc. reflexivity.
        -- intros k' Hin. apply Hfresh. right. exact Hin.
        -- intros Hin. exfalso. exact (Hnot Hin).
    + (* any other variable becomes a property *)
      unfold assign. rewrite Hk. cbn [negb]. rewrite orb_true_r.
      rewrite (obj_set_fresh _ (own scope) k (value_of i));
        [| apply Hfresh; left; reflexivity].
      rewrite IH; try assumption.
      * cbn [own proto]. rewrite Hv, <- !app_assoc. reflexivity.
      * cbn [own]. intros k' Hin.
        rewrite obj_get_none_iff, map_app, in_app_iff.
        cbn [map fst In]. intros [H | [H | []]].
        -- apply (proj1 (obj_get_none_iff _ (own scope) k')
                    (Hfresh k' (or_intror Hin))).
           exact H.
        -- subst k'. exact (Hnot Hin).
      * cbn [proto]. intros Hin. apply Hproto. right. exact Hin.
Qed.

(** X15: when the scope of the callee holds a declaration without
    initialiser (a function, an argument, [var x;]), [evalExpression] throws
    a [TypeError] whatever the expression is: it reads the value of every
    initialiser of the scope before it evaluates. *)
Theorem evalExpression_uninitialised_declaration (node arg : AST_Node)
    (vars : list (string * SymbolDef)) (k : string) (d : SymbolDef) :
  expression_variables node = Ok vars ->
  In (k, d) vars ->
  init d = None ->
  evalExpression node arg
  = Throw (TypeError "Cannot read property 'value' of undefined").
Proof.
  intros Hvars Hin Hinit. unfold evalExpression.
  rewrite Hvars, (expand_scope_missing vars k d Hin Hinit). reflexivity.
Qed.

(** X16: the function given to the host has for parameters the
    variables of the scope of the callee other than [__proto__], in the
    order of their declaration, and is applied to the [value] of the
    initialiser of every variable of that scope, [__proto__] included:
    [undefined] when the initialiser is not a literal. A variable called
    [__proto__] gives no parameter, so that the values after it are bound
    one parameter too early. Variables of enclosing scopes are not
    passed. *)
Theorem evalExpression_scope_arguments (node arg lhs rhs : AST_Node)
    (operator : string) (vars : list (string * SymbolDef)) :
  expression_variables node = Ok vars ->
  NoDup (map fst vars) ->
  (forall k d, In (k, d) vars -> init d <> None) ->
  binary_of arg = Some (lhs, operator, rhs) ->
  evalExpression node arg
  = match eval_apply
            ("(function(" ++ join "," (filter not_proto (map fst vars))
             ++ "){ return " ++ print_to_string lhs ++ operator
             ++ print_to_string rhs ++ "; })")
            (JObject
               (mkObject
                  (filter (fun kv => not_proto (fst kv))
                     (map (fun kd => (fst kd, initial_value (snd kd))) vars))
                  (scope_prototype vars)))
            (map (fun kd => initial_value (snd kd)) vars) with
    | Throw E => Throw (evalExpression_catch node E)
    | r => r
    end.
Proof.
  intros Hvars Hdup Hinit Hbin. unfold evalExpression.
  rewrite Hvars,
    (expand_scope_all vars Hdup Hinit empty_object []);
    [| reflexivity | reflexivity].
  rewrite Hbin. cbn [app own proto empty_object].
  rewrite filter_not_proto_keys, map_map. cbn [fst].
  destruct (scope_prototype vars); reflexivity.
Qed.

(** ** The callback, node by node *)

Lemma bind_Ok_inv (A B : Type) (m : Visit A) (k : A -> Visit B)
    (sf sf' : SourceFile) (b : B) :
  bind m k sf = (sf', Ok b) ->
  exists sf1 a, m sf = (sf1, Ok a) /\ k a sf1 = (sf', Ok b).
Proof.
  unfold bind. destruct (m sf) as [sf1 [a | e |]]; intros H; try discriminate H.
  exists sf1, a. split; [reflexivity | exact H].
Qed.

Lemma process_marker_not_marker (fuel : nat) (node body arg : AST_Node)
    (name : jsval) :
  is_marker_name name = false ->
  process_marker fuel node body arg name = ret None.
Proof.
  intros H. destruct name; try reflexivity. cbn [is_marker_name] in H.
  repeat (apply orb_false_elim in H; destruct H as [H ?]).
  cbn [process_marker].
  repeat match goal with E : String.eqb _ _ = false |- _ => rewrite E; clear E end.
  reflexivity.
Qed.

Lemma process_marker_marker (fuel : nat) (node body arg : AST_Node)
    (name : jsval) (sf sf' : SourceFile) :
  is_marker_name name = true ->
  process_marker fuel node body arg name sf <> (sf', Ok None).
Proof.
  intros H. destruct name; try discriminate H.
  cbn [is_marker_name process_marker] in *. unfold bind, lift.
  repeat match goal with
         | |- context [if String.eqb ?a ?b then _ else _] =>
             destruct (String.eqb a b) eqn:?
         end;
    try discriminate H;
    match goal with
    | |- context [match ?r with _ => _ end] => destruct r; discriminate
    end.
Qed.

Lemma visit_unmatched (fuel : nat) (n : AST_Node) (sf : SourceFile) :
  unmatched n = true -> visit fuel n sf = (sf, Ok None).
Proof.
  destruct n; try reflexivity; cbn [unmatched visit]; intros H.
  - (* AST_Call *)
    destruct (truthy (name_of n)); [| reflexivity]. cbn [negb orb andb] in *.
    destruct (RESERVED_SYMBOLS_test (ToString (name_of n))); [reflexivity |].
    cbn [negb orb] in *. unfold bound in H.
    destruct (scope_of n); [| discriminate H].
    destruct (find_variable (scopes s) (ToString (name_of n)));
      [reflexivity | discriminate H].
  - (* AST_New *)
    destruct (truthy (name_of n)); [| reflexivity]. cbn [negb orb] in *.
    unfold bound in H. destruct (scope_of n); [| discriminate H].
    destruct (find_variable (scopes s) (ToString (name_of n)));
      [reflexivity | discriminate H].
  - (* AST_SimpleStatement *)
    destruct (expression_of n) as [callee |]; [| reflexivity].
    destruct (args_of n) as [[| arg rest] |]; try reflexivity.
    apply negb_true_iff in H.
    rewrite (process_marker_not_marker fuel _ n arg _ H).
    destruct (RESERVED_SYMBOLS_test (ToString (name_of callee))); reflexivity.
Qed.

Lemma marker_name_reserved (name : jsval) :
  is_marker_name name = true -> RESERVED_SYMBOLS_test (ToString name) = true.
Proof.
  destruct name; try discriminate. cbn [is_marker_name ToString]. intros H.
  repeat (apply orb_prop in H; destruct H as [H | H]);
    apply String.eqb_eq in H; subst s; reflexivity.
Qed.

Lemma visit_none_unmatched (fuel : nat) (n : AST_Node) (sf sf' : SourceFile) :
  visit fuel n sf = (sf', Ok None) -> unmatched n = true.
Proof.
  destruct n; try reflexivity; cbn [unmatched visit]; intros H.
  - destruct (truthy (name_of n)); [| reflexivity]. cbn [negb orb andb] in *.
    destruct (RESERVED_SYMBOLS_test (ToString (name_of n))); [reflexivity |].
    cbn [negb orb] in *. unfold bound.
    destruct (scope_of n); [| discriminate H].
    destruct (find_variable (scopes s) (ToString (name_of n)));
      [reflexivity |].
    cbn in H. discriminate H.
  - destruct (truthy (name_of n)); [| reflexivity]. cbn [negb orb] in *.
    unfold bound. destruct (scope_of n); [| discriminate H].
    destruct (find_variable (scopes s) (ToString (name_of n)));
      [reflexivity |].
    cbn in H. discriminate H.
  - destruct (expression_of n) as [callee |]; [| reflexivity].
    destruct (args_of n) as [[| arg rest] |]; try reflexivity.
    destruct (is_marker_name (name_of callee)) eqn:Hm; [| reflexivity].
    rewrite (marker_name_reserved _ Hm) in H.
    exfalso. exact (process_marker_marker fuel _ n arg _ sf sf' Hm H).
Qed.

(** What the callback puts in the place of a node is a leaf on which it
    does nothing. *)
Lemma visit_replacement_inert (fuel : nat) (n r : AST_Node)
    (sf sf' : SourceFile) :
  visit fuel n sf = (sf', Ok (Some r)) -> inert r = true.
Proof.
  destruct n; cbn [visit]; intros H; try discriminate H.
  - destruct (truthy (name_of n) && _); [| discriminate H].
    destruct (scope_of n); [| discriminate H].
    destruct (find_variable _ _); [discriminate H |].
    cbn in H. injection H as _ <-. reflexivity.
  - destruct (truthy (name_of n)); [| discriminate H].
    destruct (scope_of n); [| discriminate H].
    destruct (find_variable _ _); [discriminate H |].
    cbn in H. injection H as _ <-. reflexivity.
  - destruct (expression_of n) as [callee |]; [| discriminate H].
    destruct (args_of n) as [[| arg rest] |]; try discriminate H.
    destruct (RESERVED_SYMBOLS_test _); [| discriminate H].
    destruct (name_of callee); try discriminate H.
    cbn [process_marker] in H. unfold bind, lift, ret in H.
    repeat match type of H with
           | context [if String.eqb ?a ?b then _ else _] =>
               destruct (String.eqb a b)
           end;
      try discriminate H;
      match type of H with
      | context [match ?x with _ => _ end] => destruct x; try discriminate H
      end;
      injection H as _ <-; reflexivity.
Qed.

(** X17: a callback that throws has recorded nothing: the argument of a
    marker is resolved before the declaration is recorded. *)
Theorem visit_throw_records_nothing (fuel : nat) (n : AST_Node)
    (sf sf' : SourceFile) (e : js_error) :
  visit fuel n sf = (sf', Throw e) -> sf' = sf.
Proof.
  destruct n; cbn [visit]; intros H; try discriminate H.
  - destruct (truthy (name_of n) && _); [| discriminate H].
    destruct (scope_of n); [| injection H as <-; reflexivity].
    destruct (find_variable _ _); [discriminate H |].
    cbn in H. discriminate H.
  - destruct (truthy (name_of n)); [| discriminate H].
    destruct (scope_of n); [| injection H as <-; reflexivity].
    destruct (find_variable _ _); [discriminate H |].
    cbn in H. discriminate H.
  - destruct (expression_of n) as [callee |]; [| discriminate H].
    destruct (args_of n) as [[| arg rest] |]; try discriminate H.
    destruct (RESERVED_SYMBOLS_test _); [| discriminate H].
    destruct (name_of callee); try discriminate H.
    cbn [process_marker] in H. unfold bind, lift, ret in H.
    repeat match type of H with
           | context [if String.eqb ?a ?b then _ else _] =>
               destruct (String.eqb a b)
           end;
      try discriminate H;
      match type of H with
      | context [match ?x with _ => _ end] => destruct x; try discriminate H
      end;
      injection H as <-; reflexivity.
Qed.

(** X18: a [package], [class], [static] or [import] statement whose first
    argument resolves records the value in the list of its kind and is
    replaced by the empty statement; the other arguments and the scope of
    the callee play no part. *)
Theorem visit_marker_records (fuel : nat) (st pos p : position) (s : scope_id)
    (name : string) (arg : AST_Node) (more : list AST_Node) (sf : SourceFile)
    (v : jsval) :
  In name ["package"; "class"; "static"; "import"] ->
  toValue fuel (Some arg)
    (AST_SimpleStatement st (AST_Call pos (AST_SymbolRef p name s) (arg :: more)))
  = Ok v ->
  visit fuel
    (AST_SimpleStatement st (AST_Call pos (AST_SymbolRef p name s) (arg :: more)))
    sf
  = ((if String.eqb name "package" then processPackage
      else if String.eqb name "class" then processClass
      else if String.eqb name "static" then processStatic
      else processImport)
       sf
       (AST_SimpleStatement st
          (AST_Call pos (AST_SymbolRef p name s) (arg :: more)))
       v,
     Ok (Some AST_EmptyStatement)).
Proof.
  intros Hname Hv.
  cbv beta iota delta
    [visit expression_of args_of name_of ToString process_marker bind lift].
  destruct Hname as [<- | [<- | [<- | [<- | []]]]]; rewrite Hv; reflexivity.
Qed.

(** ** The traversal, node by node *)

Lemma AST_Node_nested_ind (P : AST_Node -> Prop) :
  (forall v, P (AST_String v)) ->
  (forall z, P (AST_Number z)) ->
  P AST_True -> P AST_False -> P AST_Null ->
  (forall elements, Forall P elements -> P (AST_Array elements)) ->
  (forall properties, Forall (fun kv => P (snd kv)) properties ->
                      P (AST_Object properties)) ->
  (forall st name s, P (AST_SymbolRef st name s)) ->
  (forall name, P (AST_SymbolConst name)) ->
  (forall name, P (AST_SymbolLambda name)) ->
  (forall op l r, P l -> P r -> P (AST_Binary op l r)) ->
  (forall e p, P e -> P (AST_Dot e p)) ->
  (forall st e a, P e -> Forall P a -> P (AST_Call st e a)) ->
  (forall st e a, P e -> Forall P a -> P (AST_New st e a)) ->
  (forall name body, Forall P body -> P (AST_Function name body)) ->
  (forall st b, P b -> P (AST_SimpleStatement st b)) ->
  P AST_EmptyStatement ->
  (forall body, Forall P body -> P (AST_Toplevel body)) ->
  forall n, P n.
Proof.
  intros HString HNumber HTrue HFalse HNull HArray HObject HRef HConst HLambda
    HBinary HDot HCall HNew HFunction HStatement HEmpty HToplevel.
  fix IH 1. intros n.
  assert (IHlist : forall l : list AST_Node, Forall P l).
  { fix IHl 1. intros [| x l]; constructor; [apply IH | apply IHl]. }
  destruct n.
  - apply HString.
  - apply HNumber.
  - apply HTrue.
  - apply HFalse.
  - apply HNull.
  - apply HArray, IHlist.
  - apply HObject. revert properties.
    fix IHp 1. intros [| [k x] l]; constructor; [apply IH | apply IHp].
  - apply HRef.
  - apply HConst.
  - apply HLambda.
  - apply HBinary; apply IH.
  - apply HDot, IH.
  - apply HCall; [apply IH | apply IHlist].
  - apply HNew; [apply IH | apply IHlist].
  - apply HFunction, IHlist.
  - apply HStatement, IH.
  - apply HEmpty.
  - apply HToplevel, IHlist.
Qed.

Lemma transform_eq (fuel : nat) (n : AST_Node) :
  transform fuel n
  = match n with
    | AST_Array elements =>
        bind (do_list (transform fuel) elements)
          (fun elements' => after fuel (AST_Array elements'))
    | AST_Object properties =>
        bind (do_properties (transform fuel) properties)
          (fun properties' => after fuel (AST_Object properties'))
    | AST_Binary op l r =>
        bind (transform fuel l) (fun l' =>
        bind (transform fuel r) (fun r' => after fuel (AST_Binary op l' r')))
    | AST_Dot e p => bind (transform fuel e) (fun e' => after fuel (AST_Dot e' p))
    | AST_Call st e a =>
        bind (transform fuel e) (fun e' =>
        bind (do_list (transform fuel) a) (fun a' => after fuel (AST_Call st e' a')))
    | AST_New st e a =>
        bind (transform fuel e) (fun e' =>
        bind (do_list (transform fuel) a) (fun a' => after fuel (AST_New st e' a')))
    | AST_Function name body =>
        bind (do_list (transform fuel) body)
          (fun body' => after fuel (AST_Function name body'))
    | AST_SimpleStatement st b =>
        bind (transform fuel b) (fun b' => after fuel (AST_SimpleStatement st b'))
    | AST_Toplevel body =>
        bind (do_list (transform fuel) body)
          (fun body' => after fuel (AST_Toplevel body'))
    | leaf => after fuel leaf
    end.
Proof.
  assert (L : forall l : list AST_Node,
             (fix do_list (l : list AST_Node) : Visit (list AST_Node) :=
                match l with
                | [] => ret []
                | x :: rest =>
                    bind (transform fuel x) (fun x' =>
                    bind (do_list rest) (fun rest' => ret (x' :: rest')))
                end) l = do_list (transform fuel) l).
  { induction l as [| x l IHl]; [reflexivity |].
    cbn [do_list]. rewrite <- IHl. reflexivity. }
  assert (Lp : forall l : list (string * AST_Node),
             (fix do_list (l : list (string * AST_Node))
                : Visit (list (string * AST_Node)) :=
                match l with
                | [] => ret []
                | (k, x) :: rest =>
                    bind (transform fuel x) (fun x' =>
                    bind (do_list rest) (fun rest' => ret ((k, x') :: rest')))
                end) l = do_properties (transform fuel) l).
  { induction l as [| [k x] l IHl]; [reflexivity |].
    cbn [do_properties]. rewrite <- IHl. reflexivity. }
  destruct n; try reflexivity; cbn [transform]; unfold after;
    try rewrite L; try rewrite Lp; reflexivity.
Qed.


Lemma after_unmatched (fuel : nat) (x : AST_Node) (sf : SourceFile) :
  unmatched x = true -> after fuel x sf = (sf, Ok x).
Proof.
  intros H. unfold after, bind. rewrite (visit_unmatched fuel x sf H). reflexivity.
Qed.

Lemma do_list_unchanged (f : AST_Node -> Visit AST_Node) (l : list AST_Node) :
  Forall (fun x => forall sf, f x sf = (sf, Ok x)) l ->
  forall sf, do_list f l sf = (sf, Ok l).
Proof.
  induction 1 as [| x l Hx Hl IH]; intros sf; [reflexivity |].
  cbn [do_list]. unfold bind. rewrite Hx, IH. reflexivity.
Qed.

Lemma do_properties_unchanged (f : AST_Node -> Visit AST_Node)
    (l : list (string * AST_Node)) :
  Forall (fun kv => forall sf, f (snd kv) sf = (sf, Ok (snd kv))) l ->
  forall sf, do_properties f l sf = (sf, Ok l).
Proof.
  induction 1 as [| [k x] l Hx Hl IH]; intros sf; [reflexivity |].
  cbn [do_properties]. unfold bind. cbn [snd] in Hx. rewrite Hx, IH. reflexivity.
Qed.

Lemma Forall_inert (P : AST_Node -> Prop) (l : list AST_Node) :
  Forall (fun x => inert x = true -> P x) l ->
  forallb inert l = true -> Forall P l.
Proof.
  induction 1 as [| x l Hx Hl IH]; cbn [forallb]; intros H; constructor;
    apply andb_prop in H as [H1 H2]; auto.
Qed.

Lemma Forall_inert_properties (P : AST_Node -> Prop)
    (l : list (string * AST_Node)) :
  Forall (fun kv => inert (snd kv) = true -> P (snd kv)) l ->
  forallb (fun kv => inert (snd kv)) l = true ->
  Forall (fun kv => P (snd kv)) l.
Proof.
  induction 1 as [| x l Hx Hl IH]; cbn [forallb]; intros H; constructor;
    apply andb_prop in H as [H1 H2]; auto.
Qed.

(** On a tree all of whose nodes are unmatched, the traversal answers the
    tree itself and leaves the unit as it is. *)
Lemma transform_inert (fuel : nat) (n : AST_Node) :
  inert n = true -> forall sf, transform fuel n sf = (sf, Ok n).
Proof.
  induction n using AST_Node_nested_ind; intros Hi sf; rewrite transform_eq;
    cbn [inert] in Hi; apply andb_prop in Hi as [Hu Hc];
    try (apply after_unmatched; exact Hu).
  - unfold bind.
    rewrite (do_list_unchanged _ _ (Forall_inert (fun x => forall sf, transform fuel x sf = (sf, Ok x)) _ H Hc)).
    apply after_unmatched, Hu.
  - unfold bind.
    rewrite (do_properties_unchanged _ _ (Forall_inert_properties (fun x => forall sf, transform fuel x sf = (sf, Ok x)) _ H Hc)).
    apply after_unmatched, Hu.
  - apply andb_prop in Hc as [Hl Hr]. unfold bind.
    rewrite (IHn1 Hl), (IHn2 Hr). apply after_unmatched, Hu.
  - unfold bind. rewrite (IHn Hc). apply after_unmatched, Hu.
  - apply andb_prop in Hc as [He Ha]. unfold bind.
    rewrite (IHn He), (do_list_unchanged _ _ (Forall_inert (fun x => forall sf, transform fuel x sf = (sf, Ok x)) _ H Ha)).
    apply after_unmatched, Hu.
  - apply andb_prop in Hc as [He Ha]. unfold bind.
    rewrite (IHn He), (do_list_unchanged _ _ (Forall_inert (fun x => forall sf, transform fuel x sf = (sf, Ok x)) _ H Ha)).
    apply after_unmatched, Hu.
  - unfold bind.
    rewrite (do_list_unchanged _ _ (Forall_inert (fun x => forall sf, transform fuel x sf = (sf, Ok x)) _ H Hc)).
    apply after_unmatched, Hu.
  - unfold bind. rewrite (IHn Hc). apply after_unmatched, Hu.
  - unfold bind.
    rewrite (do_list_unchanged _ _ (Forall_inert (fun x => forall sf, transform fuel x sf = (sf, Ok x)) _ H Hc)).
    apply after_unmatched, Hu.
Qed.
Lemma after_result_inert (fuel : nat) (x n' : AST_Node) (sf sf' : SourceFile) :
  (unmatched x = true -> inert x = true) ->
  after fuel x sf = (sf', Ok n') -> inert n' = true.
Proof.
  intros Hx H. unfold after in H.
  apply bind_Ok_inv in H as (sf1 & y & Hv & Hr).
  unfold ret in Hr. injection Hr as _ <-. destruct y as [r |].
  - exact (visit_replacement_inert _ _ _ _ _ Hv).
  - apply Hx. exact (visit_none_unmatched _ _ _ _ Hv).
Qed.

Lemma do_list_result_inert (fuel : nat) (l : list AST_Node) :
  Forall (fun x => forall sf sf' x',
              transform fuel x sf = (sf', Ok x') -> inert x' = true) l ->
  forall sf sf' l',
    do_list (transform fuel) l sf = (sf', Ok l') -> forallb inert l' = true.
Proof.
  induction 1 as [| x l Hx Hl IH]; intros sf sf' l' H; cbn [do_list] in H.
  - unfold ret in H. injection H as _ <-. reflexivity.
  - apply bind_Ok_inv in H as (sf1 & x' & H1 & H).
    apply bind_Ok_inv in H as (sf2 & rest' & H2 & H).
    unfold ret in H. injection H as _ <-. cbn [forallb].
    rewrite (Hx _ _ _ H1), (IH _ _ _ H2). reflexivity.
Qed.

Lemma do_properties_result_inert (fuel : nat) (l : list (string * AST_Node)) :
  Forall (fun kv => forall sf sf' x',
              transform fuel (snd kv) sf = (sf', Ok x') -> inert x' = true) l ->
  forall sf sf' l',
    do_properties (transform fuel) l sf = (sf', Ok l') ->
    forallb (fun kv => inert (snd kv)) l' = true.
Proof.
  induction 1 as [| [k x] l Hx Hl IH]; intros sf sf' l' H; cbn [do_properties] in H.
  - unfold ret in H. injection H as _ <-. reflexivity.
  - apply bind_Ok_inv in H as (sf1 & x' & H1 & H).
    apply bind_Ok_inv in H as (sf2 & rest' & H2 & H).
    unfold ret in H. injection H as _ <-. cbn [forallb snd].
    cbn [snd] in Hx. rewrite (Hx _ _ _ H1), (IH _ _ _ H2). reflexivity.
Qed.

(** In the tree the traversal answers, every node is unmatched. *)
Lemma transform_result_inert (fuel : nat) (n : AST_Node) :
  forall sf sf' n', transform fuel n sf = (sf', Ok n') -> inert n' = true.
Proof.
  induction n using AST_Node_nested_ind; intros sf sf' n' Ht;
    rewrite transform_eq in Ht;
    try (solve [eapply after_result_inert in Ht; [exact Ht | intros _; reflexivity]]).
  - apply bind_Ok_inv in Ht as (sf1 & l' & Hl & Ht).
    apply (after_result_inert _ _ _ _ _) in Ht; [exact Ht |].
    intros Hu. cbn [inert]. rewrite Hu.
    exact (do_list_result_inert fuel _ H _ _ _ Hl).
  - apply bind_Ok_inv in Ht as (sf1 & l' & Hl & Ht).
    apply (after_result_inert _ _ _ _ _) in Ht; [exact Ht |].
    intros Hu. cbn [inert]. rewrite Hu.
    exact (do_properties_result_inert fuel _ H _ _ _ Hl).
  - apply bind_Ok_inv in Ht as (sf1 & l' & Hl & Ht).
    apply bind_Ok_inv in Ht as (sf2 & r' & Hr & Ht).
    apply (after_result_inert _ _ _ _ _) in Ht; [exact Ht |].
    intros Hu. cbn [inert]. rewrite Hu, (IHn1 _ _ _ Hl), (IHn2 _ _ _ Hr).
    reflexivity.
  - apply bind_Ok_inv in Ht as (sf1 & e' & He & Ht).
    apply (after_result_inert _ _ _ _ _) in Ht; [exact Ht |].
    intros Hu. cbn [inert]. rewrite Hu, (IHn _ _ _ He). reflexivity.
  - apply bind_Ok_inv in Ht as (sf1 & e' & He & Ht).
    apply bind_Ok_inv in Ht as (sf2 & a' & Ha & Ht).
    apply (after_result_inert _ _ _ _ _) in Ht; [exact Ht |].
    intros Hu. cbn [inert]. rewrite Hu, (IHn _ _ _ He).
    exact (do_list_result_inert fuel _ H _ _ _ Ha).
  - apply bind_Ok_inv in Ht as (sf1 & e' & He & Ht).
    apply bind_Ok_inv in Ht as (sf2 & a' & Ha & Ht).
    apply (after_result_inert _ _ _ _ _) in Ht; [exact Ht |].
    intros Hu. cbn [inert]. rewrite Hu, (IHn _ _ _ He).
    exact (do_list_result_inert fuel _ H _ _ _ Ha).
  - apply bind_Ok_inv in Ht as (sf1 & l' & Hl & Ht).
    apply (after_result_inert _ _ _ _ _) in Ht; [exact Ht |].
    intros Hu. cbn [inert]. rewrite Hu.
    exact (do_list_result_inert fuel _ H _ _ _ Hl).
  - apply bind_Ok_inv in Ht as (sf1 & b' & Hb & Ht).
    apply (after_result_inert _ _ _ _ _) in Ht; [exact Ht |].
    intros Hu. cbn [inert]. rewrite Hu, (IHn _ _ _ Hb). reflexivity.
  - apply bind_Ok_inv in Ht as (sf1 & l' & Hl & Ht).
    apply (after_result_inert _ _ _ _ _) in Ht; [exact Ht |].
    intros Hu. cbn [inert]. rewrite Hu.
    exact (do_list_result_inert fuel _ H _ _ _ Hl).
Qed.

(** X19: in the tree the traversal answers nothing is left to rewrite: a
    second traversal answers the same tree and records nothing. *)
Theorem transform_is_stable (fuel : nat) (n n' : AST_Node) (sf sf' : SourceFile) :
  transform fuel n sf = (sf', Ok n') ->
  forall sf2, transform fuel n' sf2 = (sf2, Ok n').
Proof.
  intros H. apply transform_inert.
  exact (transform_result_inert fuel n _ _ _ H).
Qed.

(** ** The traversal through the children of a node *)

Lemma do_properties_children (f : AST_Node -> Visit AST_Node)
    (l : list (string * AST_Node)) (sf : SourceFile) :
  do_properties f l sf
  = bind (do_list f (map snd l)) (fun cs => ret (combine (map fst l) cs)) sf.
Proof.
  revert sf. induction l as [| [k x] l IH]; intros sf.
  - reflexivity.
  - cbn [do_properties do_list map fst snd]. unfold bind.
    destruct (f x sf) as [sf1 [x' | e |]]; try reflexivity.
    specialize (IH sf1). unfold bind in IH. rewrite IH.
    destruct (do_list f (map snd l) sf1) as [sf2 [cs | e |]]; reflexivity.
Qed.

(** The traversal of a node: its children in order, then the callback on
    the node rebuilt from them. *)
Lemma transform_children (fuel : nat) (n : AST_Node) (sf : SourceFile) :
  transform fuel n sf
  = bind (do_list (transform fuel) (children n))
      (fun cs => after fuel (with_children n cs)) sf.
Proof.
  rewrite transform_eq. destruct n; cbn [children with_children]; try reflexivity.
  - (* AST_Object *)
    unfold bind at 1. rewrite do_properties_children. unfold bind.
    destruct (do_list (transform fuel) (map snd properties) sf)
      as [sf1 [cs | e |]]; reflexivity.
  - (* AST_Binary *)
    cbn [do_list]. unfold bind.
    destruct (transform fuel n1 sf) as [sf1 [l' | e |]]; try reflexivity.
    destruct (transform fuel n2 sf1) as [sf2 [r' | e |]]; reflexivity.
  - (* AST_Dot *)
    cbn [do_list]. unfold bind.
    destruct (transform fuel n sf) as [sf1 [e' | e |]]; reflexivity.
  - (* AST_Call *)
    cbn [do_list]. unfold bind.
    destruct (transform fuel n sf) as [sf1 [e' | e |]]; try reflexivity.
    destruct (do_list (transform fuel) args sf1) as [sf2 [a' | e |]]; reflexivity.
  - (* AST_New *)
    cbn [do_list]. unfold bind.
    destruct (transform fuel n sf) as [sf1 [e' | e |]]; try reflexivity.
    destruct (do_list (transform fuel) args sf1) as [sf2 [a' | e |]]; reflexivity.
  - (* AST_SimpleStatement *)
    cbn [do_list]. unfold bind.
    destruct (transform fuel n sf) as [sf1 [b' | e |]]; reflexivity.
Qed.

Lemma AST_Node_children_ind (P : AST_Node -> Prop) :
  (forall n, Forall P (children n) -> P n) -> forall n, P n.
Proof.
  intros H. induction n using AST_Node_nested_ind; apply H; cbn [children];
    repeat constructor; try assumption.
  apply Forall_map. assumption.
Qed.

(** A failure in a list of nodes ends the list there. *)
Lemma do_list_throw (f : AST_Node -> Visit AST_Node)
    (before after : list AST_Node) (x : AST_Node) (before' : list AST_Node)
    (sf sf1 sf2 : SourceFile) (E : js_error) :
  do_list f before sf = (sf1, Ok before') ->
  f x sf1 = (sf2, Throw E) ->
  do_list f (before ++ x :: after) sf = (sf2, Throw E).
Proof.
  revert sf before'. induction before as [| y before IH]; intros sf before' Hb Hx.
  - cbn in Hb. injection Hb as <- _. cbn [app do_list]. unfold bind.
    rewrite Hx. reflexivity.
  - cbn [app do_list] in *.
    apply bind_Ok_inv in Hb as (sf0 & y' & Hy & Hb).
    apply bind_Ok_inv in Hb as (sf0' & rest' & Hrest & Hb).
    unfold ret in Hb. injection Hb as -> _.
    unfold bind. rewrite Hy, (IH _ _ Hrest Hx). reflexivity.
Qed.

(** The name of a marker is one the pattern matches, so the call inside
    a marker statement is not rewritten. *)
Lemma transform_marker_call (fuel : nat) (pos p : position) (name : string)
    (s : scope_id) (args args' : list AST_Node) (sf sf' : SourceFile) :
  RESERVED_SYMBOLS_test name = true ->
  do_list (transform fuel) args sf = (sf', Ok args') ->
  transform fuel (AST_Call pos (AST_SymbolRef p name s) args) sf
  = (sf', Ok (AST_Call pos (AST_SymbolRef p name s) args')).
Proof.
  intros Hres Hargs. rewrite transform_eq. unfold bind.
  rewrite (transform_inert fuel (AST_SymbolRef p name s) eq_refl sf), Hargs.
  apply after_unmatched. cbn [unmatched name_of ToString].
  rewrite Hres, orb_true_r. reflexivity.
Qed.

(** A marker on which the evaluator fails makes the traversal throw
    what the evaluator threw: no failure is caught on the way up. *)
Lemma marker_failure_throws (fuel : nat) (E : js_error) (n : AST_Node)
    (sf sf' : SourceFile) :
  marker_failure fuel E n sf sf' -> transform fuel n sf = (sf', Throw E).
Proof.
  induction 1 as [st pos p name s args arg' more' sf sf' Hname Hargs Hfail
                 | st pos p s args arg' more' sf sf' Hargs Hfail
                 | n m before after before' sf sf1 sf2 Hchildren Hbefore Hm IH].
  - rewrite transform_eq. unfold bind.
    assert (Hres : RESERVED_SYMBOLS_test name = true)
      by (destruct Hname as [<- | [<- | [<- | [<- | []]]]]; reflexivity).
    rewrite (transform_marker_call fuel pos p name s args _ sf sf' Hres Hargs).
    unfold after, bind.
    cbv beta iota delta
      [visit expression_of args_of name_of ToString process_marker bind lift].
    rewrite Hres.
    destruct Hname as [<- | [<- | [<- | [<- | []]]]]; cbn [String.eqb Ascii.eqb Bool.eqb];
      rewrite Hfail; reflexivity.
  - rewrite transform_eq. unfold bind.
    rewrite (transform_marker_call fuel pos p "native" s args _ sf sf' eq_refl Hargs).
    unfold after, bind.
    cbv beta iota delta
      [visit expression_of args_of name_of ToString process_marker bind lift].
    cbn [RESERVED_SYMBOLS_test]. cbn. rewrite Hfail. reflexivity.
  - rewrite transform_children, Hchildren. unfold bind.
    rewrite (do_list_throw _ before after m before' sf sf1 sf2 E Hbefore IH).
    reflexivity.
Qed.

(** C7 (amended): a call whose callee is an identifier with no binding
    and a name that the pattern does not match is replaced, once its
    arguments have been traversed, by a symbol named by the generated
    symbol followed, between parentheses, by the texts that
    [print_to_string] gives for the arguments as the traversal left them,
    joined by commas; the call site records the same texts. The arguments
    are printed, not evaluated, and only the callee is given a new name;
    arguments in which the traversal finds nothing to rewrite are printed
    from the nodes of the source. *)
Theorem transform_call_placeholder (fuel : nat) (pos p : position)
    (name : string) (s : scope_id) (args args' : list AST_Node)
    (sf sf1 : SourceFile) :
  name <> "" ->
  RESERVED_SYMBOLS_test name = false ->
  find_variable (scopes s) name = None ->
  do_list (transform fuel) args sf = (sf1, Ok args') ->
  transform fuel (AST_Call pos (AST_SymbolRef p name s) args) sf
  = (snd (processFunction sf1 (AST_Call pos (AST_SymbolRef p name s) args')
            name (map print_to_string args')),
     Ok (AST_SymbolConst
           (next_symbol sf1 name ++ "("
            ++ join "," (map print_to_string args') ++ ")")))
  /\ callSites
       (snd (processFunction sf1 (AST_Call pos (AST_SymbolRef p name s) args')
               name (map print_to_string args')))
     = (callSites sf1
        ++ [mkCallSite (next_symbol sf1 name) name (map print_to_string args')
              (Some pos)])%list
  /\ (forallb inert args = true -> args' = args /\ sf1 = sf).
Proof.
  intros Hname Hres Hfind Hargs. split; [| split].
  - rewrite transform_eq. unfold bind.
    rewrite (transform_inert fuel (AST_SymbolRef p name s) eq_refl sf), Hargs.
    unfold after, bind.
    rewrite (visit_call_unbound fuel pos p name s args' sf1 Hname Hres Hfind).
    reflexivity.
  - reflexivity.
  - intros Hi.
    assert (Hsame : do_list (transform fuel) args sf = (sf, Ok args)).
    { apply do_list_unchanged.
      apply (Forall_inert
               (fun x => forall sf0, transform fuel x sf0 = (sf0, Ok x)));
        [| exact Hi].
      apply Forall_forall. intros x _ Hx. apply transform_inert, Hx. }
    rewrite Hsame in Hargs. injection Hargs as <- <-. split; reflexivity.
Qed.

(** C2 (amended): when the constant evaluator fails on a marker of a
    file that is compiled, the traversal of the file throws what the
    evaluator threw and the run ends there with the text of that error
    reported through [log.error]: the marker is not skipped, the files
    after it are not compiled, nothing is written to the cache file, and
    [fileCache] holds what the files before it left. The unit of the file,
    with the declarations recorded before the failure, is the last one
    handed to [codegen.addSource]. *)
Theorem compile_aborts_on_marker_failure (force : bool) (fuel : nat)
    (disk : option cache_table) (before rest : list source_input)
    (f : source_input) (d1 : driver) (sf' : SourceFile) (E : js_error) :
  compile_files force fuel (mkDriver [] [] (load_cache disk)) before
  = (d1, Continue) ->
  cache_hit force d1 f = None ->
  marker_failure fuel E (in_ast f)
    (new_SourceFile (in_relativeFilename f) (in_jsfilename f)) sf' ->
  transform fuel (in_ast f)
    (new_SourceFile (in_relativeFilename f) (in_jsfilename f)) = (sf', Throw E)
  /\ compile force fuel disk (before ++ f :: rest)
     = (None, Exited (log_error (error_toString E)))
  /\ exists d',
      compile_files force fuel (mkDriver [] [] (load_cache disk))
        (before ++ f :: rest)
      = (d', Exited (log_error (error_toString E)))
      /\ fileCache d' = fileCache d1
      /\ codegen_sources d' = (codegen_sources d1 ++ [length (heap d1)])%list
      /\ heap d' = (heap d1 ++ [sf'])%list.
Proof.
  intros Hbefore Hhit Hfail.
  pose proof (marker_failure_throws fuel E _ _ _ Hfail) as Hthrow.
  pose proof (compile_files_abort force fuel _ d1 before rest f sf' E
                Hbefore Hhit Hthrow) as Hrun.
  split; [exact Hthrow |]. split.
  - unfold compile. rewrite Hrun. reflexivity.
  - eexists. split; [exact Hrun |]. repeat split.
Qed.

(** X20: a file in which no node is matched (no marker statement with an
    argument, no call or constructor call of an undeclared identifier) is
    printed from its own tree; its unit holds no declaration and is
    entered in the cache table. *)
Theorem compile_file_inert (force : bool) (fuel : nat) (d : driver)
    (f : source_input) :
  inert (in_ast f) = true ->
  cache_hit force d f = None ->
  compile_file force fuel d f
  = (mkDriver
       (heap d
        ++ [finish (new_SourceFile (in_relativeFilename f) (in_jsfilename f))
              (output (in_ast f))])
       (codegen_sources d ++ [length (heap d)])
       (cache_set (fileCache d) (in_jsfilename f)
          (mkEntry (in_sourceHash f) (Live (length (heap d))))),
     Continue).
Proof.
  intros Hi Hhit. unfold compile_file.
  rewrite Hhit, (transform_inert fuel _ Hi). reflexivity.
Qed.
(** ** The units of a run *)

Lemma compile_file_continue (force : bool) (fuel : nat) (d d' : driver)
    (f : source_input) :
  compile_file force fuel d f = (d', Continue) ->
  exists u, heap d' = (heap d ++ [u])%list
            /\ codegen_sources d' = (codegen_sources d ++ [length (heap d)])%list.
Proof.
  unfold compile_file. destruct (cache_hit force d f) as [sf |].
  - intros H. injection H as <-. eexists. split; reflexivity.
  - destruct (transform fuel (in_ast f) _) as [sf' [ast2 | e |]]; intros H;
      try discriminate H.
    injection H as <-. eexists. split; reflexivity.
Qed.

Lemma compile_files_units (force : bool) (fuel : nat)
    (files : list source_input) :
  forall d d',
    compile_files force fuel d files = (d', Continue) ->
    length (heap d') = length (heap d) + length files
    /\ codegen_sources d'
       = (codegen_sources d ++ seq (length (heap d)) (length files))%list.
Proof.
  induction files as [| f files IH]; intros d d' H; cbn [compile_files] in H.
  - injection H as <-. cbn. rewrite Nat.add_0_r, app_nil_r. split; reflexivity.
  - destruct (compile_file force fuel d f) as [d1 [| e |]] eqn:Hf;
      try discriminate H.
    destruct (compile_file_continue _ _ _ _ _ Hf) as (u & Hheap & Hsrc).
    destruct (IH _ _ H) as [Hlen Hseq]. split.
    + rewrite Hlen, Hheap, length_app. cbn [length]. lia.
    + rewrite Hseq, Hsrc, Hheap, length_app, <- app_assoc. cbn [length app seq].
      rewrite Nat.add_1_r. reflexivity.
Qed.

Lemma map_nth_seq (A : Type) (x0 : A) (l : list A) :
  forall before,
    map (fun i => nth i (before ++ l) x0) (seq (length before) (length l)) = l.
Proof.
  induction l as [| x l IH]; intros before.
  - reflexivity.
  - cbn [length seq map]. rewrite nth_middle. f_equal.
    specialize (IH (before ++ [x])%list).
    rewrite <- app_assoc, length_app in IH. cbn [length app] in IH.
    rewrite Nat.add_1_r in IH. exact IH.
Qed.

(** The callback and the traversal leave the name of the unit alone. *)
Lemma visit_keeps_jsname (fuel : nat) (n : AST_Node) (sf : SourceFile) :
  jsname (fst (visit fuel n sf)) = jsname sf.
Proof.
  destruct n; try reflexivity; cbn [visit].
  - destruct (truthy (name_of n) && _); [| reflexivity].
    destruct (scope_of n); [| reflexivity].
    destruct (find_variable _ _); reflexivity.
  - destruct (truthy (name_of n)); [| reflexivity].
    destruct (scope_of n); [| reflexivity].
    destruct (find_variable _ _); reflexivity.
  - destruct (expression_of n) as [callee |]; [| reflexivity].
    destruct (args_of n) as [[| arg rest] |]; try reflexivity.
    destruct (RESERVED_SYMBOLS_test _); [| reflexivity].
    destruct (name_of callee); try reflexivity.
    cbn [process_marker]. unfold bind, lift, ret.
    repeat match goal with
           | |- context [if String.eqb ?a ?b then _ else _] =>
               destruct (String.eqb a b)
           end;
      try reflexivity;
      match goal with
      | |- context [match ?x with _ => _ end] => destruct x; reflexivity
      end.
Qed.

Lemma after_keeps_jsname (fuel : nat) (x : AST_Node) (sf : SourceFile) :
  jsname (fst (after fuel x sf)) = jsname sf.
Proof.
  unfold after, bind, ret. pose proof (visit_keeps_jsname fuel x sf) as H.
  destruct (visit fuel x sf) as [sf1 [y | e |]]; exact H.
Qed.

Lemma do_list_keeps_jsname (f : AST_Node -> Visit AST_Node) (l : list AST_Node) :
  Forall (fun x => forall sf, jsname (fst (f x sf)) = jsname sf) l ->
  forall sf, jsname (fst (do_list f l sf)) = jsname sf.
Proof.
  induction 1 as [| x l Hx Hl IH]; intros sf; [reflexivity |].
  cbn [do_list]. unfold bind, ret. specialize (Hx sf).
  destruct (f x sf) as [sf1 [x' | e |]]; cbn [fst] in *; try exact Hx.
  specialize (IH sf1).
  destruct (do_list f l sf1) as [sf2 [l' | e |]]; cbn [fst] in *; congruence.
Qed.

Lemma transform_keeps_jsname (fuel : nat) (n : AST_Node) :
  forall sf, jsname (fst (transform fuel n sf)) = jsname sf.
Proof.
  apply (AST_Node_children_ind
           (fun n => forall sf, jsname (fst (transform fuel n sf)) = jsname sf)).
  clear n. intros n IH sf. rewrite transform_children. unfold bind.
  pose proof (do_list_keeps_jsname _ _ IH sf) as Hl.
  destruct (do_list (transform fuel) (children n) sf) as [sf1 [cs | e |]];
    cbn [fst] in *; try exact Hl.
  rewrite after_keeps_jsname. exact Hl.
Qed.

(** The units allocated before stay where they are when one is added. *)
Lemma well_keyed_grows (d : driver) (u : SourceFile)
    (cache : object cache_entry) :
  (forall k e, lookup cache k = Some e ->
               lookup (fileCache d) k = Some e
               \/ (sourcefile e = Live (length (heap d)) /\ jsname u = k)) ->
  well_keyed d ->
  forall sources,
    well_keyed (mkDriver (heap d ++ [u]) sources cache).
Proof.
  clear scopes print_to_string eval_apply symbol_name output generate.
  intros Hcache Hd sources k e Hk. cbn [fileCache heap] in *.
  unfold deref. cbn [heap]. rewrite length_app. cbn [length].
  destruct (Hcache k e Hk) as [Hold | [Hnew Hname]].
  - specialize (Hd k e Hold). destruct (sourcefile e) as [sf | ref]; [exact Hd |].
    destruct Hd as [Hlt Hname]. split; [lia |].
    rewrite app_nth1; [exact Hname | exact Hlt].
  - rewrite Hnew. split; [lia |]. rewrite nth_middle. exact Hname.
Qed.

(** One file: the unit handed to the backend bears the name of the file,
    whether it comes from the cache or from the traversal. *)
Lemma compile_file_unit (force : bool) (fuel : nat) (d d' : driver)
    (f : source_input) :
  well_keyed d ->
  compile_file force fuel d f = (d', Continue) ->
  well_keyed d'
  /\ exists u, heap d' = (heap d ++ [u])%list /\ jsname u = in_jsfilename f.
Proof.
  intros Hd. unfold compile_file.
  destruct (cache_hit force d f) as [sf |] eqn:Hhit.
  - intros H. injection H as <-.
    assert (Hname : jsname (mark_cached sf) = in_jsfilename f).
    { unfold cache_hit in Hhit.
      destruct (lookup (fileCache d) (in_jsfilename f)) as [e |] eqn:He;
        [| discriminate Hhit].
      destruct (negb force && _ && _); [| discriminate Hhit].
      injection Hhit as <-. specialize (Hd _ _ He). cbn [mark_cached jsname].
      unfold fromJSON. destruct (sourcefile e); [exact Hd | exact (proj2 Hd)]. }
    split.
    + apply well_keyed_grows; [| exact Hd]. intros k e Hk. left. exact Hk.
    + eexists. split; [reflexivity | exact Hname].
  - pose proof (transform_keeps_jsname fuel (in_ast f)
                  (new_SourceFile (in_relativeFilename f) (in_jsfilename f)))
      as Hname.
    destruct (transform fuel (in_ast f) _) as [sf' [ast2 | e |]]; intros H;
      try discriminate H.
    injection H as <-. cbn [fst new_SourceFile jsname] in Hname.
    split.
    + apply well_keyed_grows; [| exact Hd]. intros k e Hk.
      rewrite lookup_cache_set in Hk.
      destruct (String.eqb (in_jsfilename f) k) eqn:E.
      * apply String.eqb_eq in E. injection Hk as <-. right.
        split; [reflexivity |]. cbn [finish jsname]. rewrite Hname. exact E.
      * left. exact Hk.
    + eexists. split; [reflexivity |]. cbn [finish jsname]. exact Hname.
Qed.

Lemma compile_files_names (force : bool) (fuel : nat)
    (files : list source_input) :
  forall d d',
    well_keyed d ->
    compile_files force fuel d files = (d', Continue) ->
    map jsname (heap d')
    = (map jsname (heap d) ++ map in_jsfilename files)%list.
Proof.
  induction files as [| f files IH]; intros d d' Hd H; cbn [compile_files] in H.
  - injection H as <-. cbn [map]. rewrite app_nil_r. reflexivity.
  - destruct (compile_file force fuel d f) as [d1 [| e |]] eqn:Hf;
      try discriminate H.
    destruct (compile_file_unit _ _ _ _ _ Hd Hf) as (Hd1 & u & Hheap & Hname).
    rewrite (IH _ _ Hd1 H), Hheap, map_app, <- app_assoc. cbn [map app].
    rewrite Hname. reflexivity.
Qed.

(** X21: when every file of a run is compiled or found in the cache, the
    backend has been handed one unit for each file, in the order of the
    files: the unit handed for a file bears the name of that file, the
    entries read from the cache file being stored under the name of their
    unit. *)
Theorem compile_files_hands_every_unit (force : bool) (fuel : nat)
    (cache : object cache_entry) (files : list source_input) (d : driver) :
  well_keyed (mkDriver [] [] cache) ->
  compile_files force fuel (mkDriver [] [] cache) files = (d, Continue) ->
  length (heap d) = length files
  /\ map (deref d) (codegen_sources d) = heap d
  /\ map jsname (map (deref d) (codegen_sources d)) = map in_jsfilename files.
Proof.
  intros Hcache H. destruct (compile_files_units _ _ _ _ _ H) as [Hlen Hseq].
  cbn in Hlen, Hseq.
  assert (Hunits : map (deref d) (codegen_sources d) = heap d).
  { rewrite Hseq, <- Hlen. unfold deref.
    exact (map_nth_seq _ (new_SourceFile "" "") (heap d) []). }
  split; [exact Hlen |]. split; [exact Hunits |].
  rewrite Hunits. exact (compile_files_names _ _ _ _ _ Hcache H).
Qed.

(** X22: once a file is compiled, a later file of the run with the same
    normalised name is served from the cache exactly when it is not
    forced, its digest is the same and its unit is cacheable; the unit it
    gets is the one of the first file. The entries of the other names are
    as they were. *)
Theorem compile_file_then_cache_hit (force : bool) (fuel : nat) (d : driver)
    (f g : source_input) (sf' : SourceFile) (ast2 : AST_Node) :
  cache_hit force d f = None ->
  transform fuel (in_ast f)
    (new_SourceFile (in_relativeFilename f) (in_jsfilename f)) = (sf', Ok ast2) ->
  in_jsfilename g = in_jsfilename f ->
  cache_hit false (fst (compile_file force fuel d f)) g
  = (if String.eqb (in_sourceHash f) (in_sourceHash g) && in_cacheable g
     then Some (finish sf' (output ast2)) else None)
  /\ cache_hit true (fst (compile_file force fuel d f)) g = None
  /\ forall k, k <> in_jsfilename f ->
               lookup (fileCache (fst (compile_file force fuel d f))) k
               = lookup (fileCache d) k.
Proof.
  intros Hhit Hok Hname.
  rewrite (compile_file_recorded force fuel d f sf' ast2 Hhit Hok). cbn [fst].
  split; [| split].
  - unfold cache_hit. cbn [fileCache].
    rewrite Hname, lookup_cache_set, String.eqb_refl.
    cbn [sourceHash sourcefile negb andb].
    destruct (String.eqb (in_sourceHash f) (in_sourceHash g) && in_cacheable g);
      [| reflexivity].
    cbn [fromJSON]. unfold deref. cbn [heap]. rewrite nth_middle. reflexivity.
  - apply cache_hit_force.
  - intros k Hk. cbn [fileCache]. rewrite lookup_cache_set.
    apply not_eq_sym in Hk. apply String.eqb_neq in Hk. rewrite Hk. reflexivity.
Qed.

(** ** Markers in source order *)

Lemma transform_import_statement (fuel : nat) (s : scope_id)
    (entry : position * string) (sf : SourceFile) :
  snd entry <> "" ->
  transform (S fuel) (import_statement s entry) sf
  = (processImport sf (import_statement s entry) (JStr (snd entry)),
     Ok AST_EmptyStatement).
Proof.
  intros Hpath. unfold import_statement. rewrite transform_eq. unfold bind.
  rewrite transform_inert; [| reflexivity].
  unfold after, bind.
  rewrite (visit_statement_import_literal fuel _ _ _ s (snd entry) [] sf Hpath).
  reflexivity.
Qed.

Lemma do_list_import_statements (fuel : nat) (s : scope_id)
    (entries : list (position * string)) :
  Forall (fun entry => snd entry <> "") entries ->
  forall sf,
    do_list (transform (S fuel)) (map (import_statement s) entries) sf
    = (fold_left (fun unit entry =>
                    processImport unit (import_statement s entry)
                      (JStr (snd entry))) entries sf,
       Ok (map (fun _ => AST_EmptyStatement) entries)).
Proof.
  induction 1 as [| entry entries Hentry Hrest IH]; intros sf.
  - reflexivity.
  - cbn [map do_list fold_left]. unfold bind.
    rewrite (transform_import_statement fuel s entry sf Hentry), IH.
    reflexivity.
Qed.

Lemma fold_processImport_imports (s : scope_id)
    (entries : list (position * string)) :
  forall sf,
    importDecls
      (fold_left (fun unit entry =>
                    processImport unit (import_statement s entry)
                      (JStr (snd entry))) entries sf)
    = (importDecls sf ++ map (fun entry => JStr (snd entry)) entries)%list.
Proof.
  induction entries as [| entry entries IH]; intros sf.
  - cbn. rewrite app_nil_r. reflexivity.
  - cbn [fold_left map]. rewrite IH. cbn [processImport importDecls].
    rewrite <- app_assoc. reflexivity.
Qed.

(** X23: in a file made of [import("...")] statements with non-empty
    literal paths, [processImport] is called once for each statement, in
    source order, and every statement is replaced by the empty statement;
    the imports of the unit are the paths in that order, repeated paths
    included. *)
Theorem transform_imports_in_source_order (fuel : nat) (s : scope_id)
    (entries : list (position * string)) (sf : SourceFile) :
  Forall (fun entry => snd entry <> "") entries ->
  transform (S fuel) (AST_Toplevel (map (import_statement s) entries)) sf
  = (fold_left (fun unit entry =>
                  processImport unit (import_statement s entry)
                    (JStr (snd entry))) entries sf,
     Ok (AST_Toplevel (map (fun _ => AST_EmptyStatement) entries)))
  /\ importDecls
       (fst (transform (S fuel)
               (AST_Toplevel (map (import_statement s) entries)) sf))
     = (importDecls sf ++ map (fun entry => JStr (snd entry)) entries)%list.
Proof.
  intros Hentries.
  assert (E : transform (S fuel)
                (AST_Toplevel (map (import_statement s) entries)) sf
              = (fold_left (fun unit entry =>
                              processImport unit (import_statement s entry)
                                (JStr (snd entry))) entries sf,
                 Ok (AST_Toplevel (map (fun _ => AST_EmptyStatement) entries)))).
  { rewrite transform_eq. unfold bind.
    rewrite (do_list_import_statements fuel s entries Hentries sf).
    reflexivity. }
  split; [exact E |].
  rewrite E. cbn [fst]. apply fold_processImport_imports.
Qed.

End Compiler.

(** * Concrete runs

    The runs below use the scope tables of [example_scopes], the printer
    [print_min], the host [example_host] and the symbols of
    [example_symbol]. *)

(** C1 (as the code has it): in the file that declares a function called
    [native], the statement [native({foo: "bar"})] is processed as a
    marker: the declaration is recorded and the statement is replaced by
    the empty statement. *)
Theorem shadowed_native_processed_as_marker :
  find_variable (example_scopes 1) "native" = Some (mkSymbolDef None)
  /\ visit example_scopes print_min example_host example_symbol 1
       shadowed_native_statement (new_SourceFile "app.hjs" "app")
     = (mkSourceFile "app.hjs" "app" None [] [] [JObj [("foo", JStr "bar")]]
          [] [] [] false None,
        Ok (Some AST_EmptyStatement)).
Proof.
  split.
  - reflexivity.
  - unfold shadowed_native_statement.
    rewrite visit_statement_native_any_scope. reflexivity.
Qed.

(** The same name without argument, [native();], is left alone, as is the
    call inside it. *)
Example shadowed_native_without_argument :
  transform example_scopes print_min example_host example_symbol 1
    (AST_SimpleStatement (at_line 2 0)
       (AST_Call (at_line 2 0) (AST_SymbolRef (at_line 2 0) "native" 1) []))
    (new_SourceFile "app.hjs" "app")
  = (new_SourceFile "app.hjs" "app",
     Ok (AST_SimpleStatement (at_line 2 0)
           (AST_Call (at_line 2 0) (AST_SymbolRef (at_line 2 0) "native" 1) []))).
Proof. vm_compute. reflexivity. Qed.

(** C2 (counterexample): the file [import("a"); native({path: "a" + width});]
    stops the run at its second statement. The unit of the file, holding
    the import recorded before the failure, is in the list handed to the
    backend, and the message reported has a file and a line but no
    column. *)
Lemma failing_unit_was_handed_to_backend :
  compile_file example_scopes print_min example_host example_symbol print_min
    false 3 (mkDriver [] [] empty_object) failing_native_file
  = (mkDriver [unit_with_import_a] [0] empty_object,
     Exited (mkExit 1
               (Some "Error: can't seem to determine value of 'h' during import at app.hjs on line 2"))).
Proof. vm_compute. reflexivity. Qed.

(** The run over [plain_file], the file [import("a"); import(x);] and
    [plain_file] again ends at the second file, on the message of
    [toValue], with no write to the cache file: the evaluator fails on the
    second marker of the file, the first having been recorded. *)
Lemma compile_aborts_on_failing_file :
  compile example_scopes print_min example_host example_symbol print_min
    example_generate false 2 None [plain_file; failing_file; plain_file]
  = (None,
     Exited (mkExit 1
               (Some "Error: Couldn't find variable named: x at app.hjs on 2:7"))).
Proof.
  refine (proj1 (proj2
            (compile_aborts_on_marker_failure example_scopes print_min
               example_host example_symbol print_min example_generate
               false 2 None [plain_file] [plain_file] failing_file
               (mkDriver
                  [mkSourceFile "util/str-tools.js" "util_str_tools" None [] []
                     [] [] [] [] false (Some "s.toUTF8();native();")]
                  [0]
                  (mkObject
                     [("util_str_tools",
                       mkEntry "d41d8cd98f00b204e9800998ecf8427e" (Live 0))]
                     None))
               unit_with_import_a
               (Error "Couldn't find variable named: x at app.hjs on 2:7")
               _ _ _))).
  - vm_compute. reflexivity.
  - reflexivity.
  - apply (failure_in_child example_scopes print_min example_host
             example_symbol 2 _ (in_ast failing_file)
             (AST_SimpleStatement (at_line 2 0)
                (AST_Call (at_line 2 0) (AST_SymbolRef (at_line 2 0) "import" 2)
                   [AST_SymbolRef (at_line 2 7) "x" 2]))
             [AST_SimpleStatement (at_line 1 0)
                (AST_Call (at_line 1 0) (AST_SymbolRef (at_line 1 0) "import" 2)
                   [AST_String "a"])]
             [] [AST_EmptyStatement]
             (new_SourceFile "app.hjs" "app.hjs") unit_with_import_a
             unit_with_import_a).
    + reflexivity.
    + vm_compute. reflexivity.
    + apply (failure_of_toValue example_scopes print_min example_host
               example_symbol 2 _ (at_line 2 0) (at_line 2 0) (at_line 2 0)
               "import" 2 [AST_SymbolRef (at_line 2 7) "x" 2]
               (AST_SymbolRef (at_line 2 7) "x" 2) []).
      * right. right. right. left. reflexivity.
      * vm_compute. reflexivity.
      * reflexivity.
Defined.

(** [classify(1)] with [classify] declared nowhere is not rewritten. *)
Lemma visit_call_classify_kept :
  find_variable (example_scopes 2) "classify" = None
  /\ visit example_scopes print_min example_host example_symbol 0
       (AST_Call (at_line 1 0) (AST_SymbolRef (at_line 1 0) "classify" 2)
          [AST_Number 1])
       (new_SourceFile "app.hjs" "app")
     = (new_SourceFile "app.hjs" "app", Ok None).
Proof.
  split.
  - reflexivity.
  - apply (visit_call_reserved_substring example_scopes print_min example_host
             example_symbol 0 (at_line 1 0) (at_line 1 0) "classify" 2
             [AST_Number 1] (new_SourceFile "app.hjs" "app")).
    reflexivity.
Defined.

Example visit_call_doimport_kept :
  visit example_scopes print_min example_host example_symbol 0
    (AST_Call (at_line 1 0) (AST_SymbolRef (at_line 1 0) "doimport" 2) [])
    (new_SourceFile "app.hjs" "app")
  = (new_SourceFile "app.hjs" "app", Ok None).
Proof. vm_compute. reflexivity. Qed.

(** C4 (as the code has it): the elements of an array are not resolved.
    With [var w = 10], the identifier [w] and the array [["b"]] resolve to
    [10] and [["b"]] on their own, and to [undefined] as elements of an
    array; literal elements keep their value and their order. *)
Theorem toValue_array_elements_not_resolved :
  toValue example_scopes print_min example_host 2
    (Some (AST_SymbolRef (at_line 2 8) "w" 0)) AST_EmptyStatement
  = Ok (JNum 10)
  /\ toValue example_scopes print_min example_host 2
       (Some (AST_Array [AST_String "b"])) AST_EmptyStatement
     = Ok (JArr [JStr "b"])
  /\ toValue example_scopes print_min example_host 2
       (Some (AST_Array [AST_String "a"; AST_SymbolRef (at_line 2 8) "w" 0;
                         AST_Array [AST_String "b"]; AST_Number 0]))
       AST_EmptyStatement
     = Ok (JArr [JStr "a"; JUndefined; JUndefined; JNum 0]).
Proof.
  split; [| split].
  - vm_compute. reflexivity.
  - apply toValue_array.
  - rewrite toValue_array. reflexivity.
Qed.

(** [native({path: "a" + width})] with [width] declared nowhere: the
    error names [h]. *)
Lemma evalExpression_width_reported_as_h :
  expression_variables example_scopes native_width_call = Ok []
  /\ evalExpression example_scopes print_min example_host native_width_call
       (AST_Binary "+" (AST_String "a") (AST_SymbolRef (at_line 2 19) "width" 2))
     = Throw (Error "can't seem to determine value of 'h' during import at app.hjs on line 2").
Proof.
  split.
  - reflexivity.
  - apply (evalExpression_names_last_character example_scopes print_min
             example_host native_width_call _ (AST_String "a")
             (AST_SymbolRef (at_line 2 19) "width" 2) "+" [] empty_object []
             (at_line 2 0) "widt" "h"); reflexivity.
Defined.

(** The whole statement [native({path: "a" + width});] fails with that
    message and records nothing. *)
Example native_width_statement_fails :
  transform example_scopes print_min example_host example_symbol 3
    (AST_SimpleStatement (at_line 2 0) native_width_call)
    (new_SourceFile "app.hjs" "app")
  = (new_SourceFile "app.hjs" "app",
     Throw (Error "can't seem to determine value of 'h' during import at app.hjs on line 2")).
Proof. vm_compute. reflexivity. Qed.

(** With [var w = 10], [native({path: "a" + w})] records the path
    [a10]. *)
Example native_binary_resolved :
  makeDictionaryFromArg example_scopes print_min example_host 1
    (AST_Object [("path", AST_Binary "+" (AST_String "a")
                            (AST_SymbolRef (at_line 2 19) "w" 0))])
    (AST_Call (at_line 2 0) (AST_SymbolRef (at_line 2 0) "native" 0) [])
  = Ok (JObj [("path", JStr "a10")]).
Proof. vm_compute. reflexivity. Qed.

(** With [var w = 10], [import("a" + w);] does not resolve: the statement
    is the [node] given to [evalExpression]. *)
Example import_binary_throws :
  visit example_scopes print_min example_host example_symbol 2
    (AST_SimpleStatement (at_line 2 0)
       (AST_Call (at_line 2 0) (AST_SymbolRef (at_line 2 0) "import" 0)
          [AST_Binary "+" (AST_String "a") (AST_SymbolRef (at_line 2 12) "w" 0)]))
    (new_SourceFile "app.hjs" "app")
  = (new_SourceFile "app.hjs" "app",
     Throw (TypeError "Cannot read property 'scope' of undefined")).
Proof. vm_compute. reflexivity. Qed.

(** [bar(x+1, "s")] becomes [bar_0(x+1,"s")], and the call site holds
    the two texts: nothing is rewritten in the arguments, and the printer
    leaves no blank after the comma. *)
Lemma transform_bar_call_placeholder :
  find_variable (example_scopes 2) "bar" = None
  /\ transform example_scopes print_min example_host example_symbol 0 bar_call
       (new_SourceFile "app.hjs" "app")
     = (unit_with_bar_call,
        Ok (AST_SymbolConst ("bar_0(x+1," ++ dquote ++ "s" ++ dquote ++ ")")))
  /\ callSites unit_with_bar_call
     = [mkCallSite "bar_0" "bar" ["x+1"; dquote ++ "s" ++ dquote]
          (Some (at_line 1 0))].
Proof.
  split; [reflexivity |].
  refine ((fun H => conj (proj1 H) (proj1 (proj2 H)))
            (transform_call_placeholder example_scopes print_min example_host
               example_symbol 0 (at_line 1 0) (at_line 1 0) "bar" 2
               [AST_Binary "+" (AST_SymbolRef (at_line 1 4) "x" 2) (AST_Number 1);
                AST_String "s"]
               [AST_Binary "+" (AST_SymbolRef (at_line 1 4) "x" 2) (AST_Number 1);
                AST_String "s"]
               (new_SourceFile "app.hjs" "app") (new_SourceFile "app.hjs" "app")
               _ _ _ _)).
  - discriminate.
  - reflexivity.
  - reflexivity.
  - vm_compute. reflexivity.
Defined.

(** C7 (counterexample): in [bar(foo(1))] the text of the argument,
    [foo(1)], is not in the placeholder of the call: the argument was
    rewritten first, and the text taken is that of its own placeholder. *)
Lemma nested_call_argument_is_rewritten :
  snd (transform example_scopes print_min example_host example_symbol 0
         (AST_Call (at_line 1 0) (AST_SymbolRef (at_line 1 0) "bar" 2)
            [AST_Call (at_line 1 4) (AST_SymbolRef (at_line 1 4) "foo" 2)
               [AST_Number 1]])
         (new_SourceFile "app.hjs" "app"))
  = Ok (AST_SymbolConst "bar_1(foo_0(1))")
  /\ print_min
       (AST_Call (at_line 1 4) (AST_SymbolRef (at_line 1 4) "foo" 2)
          [AST_Number 1])
     = "foo(1)"
  /\ AST_SymbolConst "bar_1(foo_0(1))"
     <> AST_SymbolConst
          ("bar_1" ++ "("
           ++ join ","
                [print_min
                   (AST_Call (at_line 1 4) (AST_SymbolRef (at_line 1 4) "foo" 2)
                      [AST_Number 1])]
           ++ ")").
Proof.
  split; [| split].
  - vm_compute. reflexivity.
  - vm_compute. reflexivity.
  - vm_compute. discriminate.
Qed.

(** [new Foo(1, bar())] becomes [Foo_0()], whatever its arguments. *)
Lemma visit_new_Foo_placeholder :
  find_variable (example_scopes 2) "Foo" = None
  /\ exists sf',
      visit example_scopes print_min example_host example_symbol 0 new_Foo
        (new_SourceFile "app.hjs" "app")
      = (sf', Ok (Some (AST_SymbolConst "Foo_0()")))
      /\ instantiations sf'
         = [mkInstantiation "Foo_0" "Foo" (Some (at_line 1 0))]
      /\ callSites sf' = []
      /\ (packageDecl sf', classDecls sf', staticDecls sf', nativeDecls sf',
          importDecls sf')
         = (None, [], [], [], [])
      /\ forall args',
           visit example_scopes print_min example_host example_symbol 0
             (AST_New (at_line 1 0) (AST_SymbolRef (at_line 1 4) "Foo" 2) args')
             (new_SourceFile "app.hjs" "app")
           = (sf', Ok (Some (AST_SymbolConst "Foo_0()"))).
Proof.
  split.
  - reflexivity.
  - apply (visit_new_unbound example_scopes print_min example_host
             example_symbol 0 (at_line 1 0) (at_line 1 4) "Foo" 2
             [AST_Number 1;
              AST_Call (at_line 1 11) (AST_SymbolRef (at_line 1 11) "bar" 2) []]
             (new_SourceFile "app.hjs" "app")).
    + discriminate.
    + reflexivity.
Defined.

Example print_new_Foo_placeholder :
  print_min (AST_SymbolConst ("Foo_0" ++ "()")) = "Foo_0()".
Proof. vm_compute. reflexivity. Qed.

(** [(function foo(){})()] stops the traversal. *)
Example named_function_call_stops_traversal :
  transform example_scopes print_min example_host example_symbol 1
    (AST_Toplevel
       [AST_SimpleStatement (at_line 1 0)
          (AST_Call (at_line 1 0) (AST_Function (Some "foo") []) [])])
    (new_SourceFile "app.hjs" "app")
  = (new_SourceFile "app.hjs" "app",
     Throw (TypeError "Cannot call method 'find_variable' of undefined")).
Proof. vm_compute. reflexivity. Qed.

(** [foo(1)(2)] with [foo] declared nowhere: the inner call is rewritten
    first and the outer call then finds a placeholder for callee. *)
Example call_of_rewritten_call_stops_traversal :
  snd (transform example_scopes print_min example_host example_symbol 1
         (AST_Call (at_line 1 0)
            (AST_Call (at_line 1 0) (AST_SymbolRef (at_line 1 0) "foo" 2)
               [AST_Number 1])
            [AST_Number 2])
         (new_SourceFile "app.hjs" "app"))
  = Throw (TypeError "Cannot call method 'find_variable' of undefined").
Proof. vm_compute. reflexivity. Qed.

(** [obj.method(1)] and [new a.b.C()] are left alone. *)
Example member_callees_unchanged :
  transform example_scopes print_min example_host example_symbol 1
    (AST_Call (at_line 1 0)
       (AST_Dot (AST_SymbolRef (at_line 1 0) "obj" 2) "method") [AST_Number 1])
    (new_SourceFile "app.hjs" "app")
  = (new_SourceFile "app.hjs" "app",
     Ok (AST_Call (at_line 1 0)
           (AST_Dot (AST_SymbolRef (at_line 1 0) "obj" 2) "method")
           [AST_Number 1]))
  /\ transform example_scopes print_min example_host example_symbol 1
       (AST_New (at_line 1 0)
          (AST_Dot (AST_Dot (AST_SymbolRef (at_line 1 4) "a" 2) "b") "C") [])
       (new_SourceFile "app.hjs" "app")
     = (new_SourceFile "app.hjs" "app",
        Ok (AST_New (at_line 1 0)
              (AST_Dot (AST_Dot (AST_SymbolRef (at_line 1 4) "a" 2) "b") "C") [])).
Proof. split; vm_compute; reflexivity. Qed.

(** * The names, the listing and the build options *)

(** ** File names *)

Lemma string_length_app (a b : string) :
  String.length (a ++ b) = String.length a + String.length b.
Proof.
  induction a as [| c a IH]; cbn [append String.length].
  - reflexivity.
  - rewrite IH. reflexivity.
Qed.

Lemma string_app_assoc (a b c : string) : a ++ (b ++ c) = (a ++ b) ++ c.
Proof.
  induction a as [| x a IH]; cbn [append].
  - reflexivity.
  - rewrite IH. reflexivity.
Qed.

Lemma replace_invalid_app (a b : string) :
  replace_invalid (a ++ b) = replace_invalid a ++ replace_invalid b.
Proof.
  induction a as [| c a IH]; cbn [append replace_invalid].
  - reflexivity.
  - rewrite IH. reflexivity.
Qed.

Lemma replace_invalid_clean (s : string) :
  all_chars (fun c => negb (is_replaced_char c)) (replace_invalid s) = true.
Proof.
  induction s as [| c s IH]; cbn [replace_invalid all_chars].
  - reflexivity.
  - rewrite IH, andb_true_r.
    destruct (is_replaced_char c) eqn:E; [reflexivity | rewrite E; reflexivity].
Qed.

Lemma strip_js_keeps (p : ascii -> bool) (s : string) :
  all_chars p s = true -> all_chars p (strip_js s) = true.
Proof.
  induction s as [| c s IH]; intros H.
  - reflexivity.
  - cbn [strip_js]. destruct (String.eqb (String c s) ".js"); [reflexivity |].
    cbn [all_chars] in *. apply andb_prop in H as [Hc Hs].
    rewrite Hc, (IH Hs). reflexivity.
Qed.

Lemma strip_js_app (t : string) : strip_js (t ++ ".js") = t.
Proof.
  induction t as [| c t IH].
  - reflexivity.
  - cbn [append strip_js].
    assert (E : String.eqb (String c (t ++ ".js")) ".js" = false).
    { apply String.eqb_neq. intros H. apply (f_equal String.length) in H.
      cbn [String.length] in H. rewrite string_length_app in H.
      cbn [String.length] in H. lia. }
    rewrite E, IH. reflexivity.
Qed.

Lemma strip_js_other (s : string) :
  (forall t, s <> t ++ ".js") -> strip_js s = s.
Proof.
  induction s as [| c s IH]; intros H.
  - reflexivity.
  - cbn [strip_js]. destruct (String.eqb (String c s) ".js") eqn:E.
    + apply String.eqb_eq in E. exfalso. apply (H ""). exact E.
    + rewrite IH; [reflexivity |].
      intros t Ht. apply (H (String c t)). cbn [append]. rewrite Ht. reflexivity.
Qed.

Lemma strip_prefix_app (p s : string) : strip_prefix p (p ++ s) = Some s.
Proof.
  induction p as [| c p IH]; cbn [append strip_prefix].
  - destruct s; reflexivity.
  - rewrite Ascii.eqb_refl. exact IH.
Qed.

Lemma remove_first_prefix (p s : string) : remove_first p (p ++ s) = s.
Proof.
  assert (U : forall x, remove_first p x
                        = match strip_prefix p x with
                          | Some rest => rest
                          | None =>
                              match x with
                              | EmptyString => EmptyString
                              | String c rest => String c (remove_first p rest)
                              end
                          end).
  { intros x. destruct x; reflexivity. }
  rewrite U, strip_prefix_app. reflexivity.
Qed.

(** X1: the normalised name of a file holds no blank, hyphen or slash,
    whatever the path it is made from. *)
Theorem jsfilename_has_no_separator (relativeFilename : string) :
  all_chars (fun c => negb (is_replaced_char c)) (jsfilename_of relativeFilename)
  = true.
Proof.
  unfold jsfilename_of. apply strip_js_keeps, replace_invalid_clean.
Qed.

(** X2: two paths that differ by a slash, a hyphen or a blank where the
    other has an underscore get the same normalised name, hence the same
    key in the cache table. *)
Theorem jsfilename_separators_collide (a b : string) :
  jsfilename_of (a ++ "/" ++ b) = jsfilename_of (a ++ "_" ++ b)
  /\ jsfilename_of (a ++ "-" ++ b) = jsfilename_of (a ++ "_" ++ b)
  /\ jsfilename_of (a ++ " " ++ b) = jsfilename_of (a ++ "_" ++ b).
Proof.
  unfold jsfilename_of.
  repeat split; rewrite !replace_invalid_app; reflexivity.
Qed.

(** X3: a final [.js] is removed from the name, once. *)
Theorem jsfilename_strips_final_js (s : string) :
  jsfilename_of (s ++ ".js") = replace_invalid s
  /\ jsfilename_of (s ++ ".js.js") = replace_invalid s ++ ".js".
Proof.
  unfold jsfilename_of. split.
  - rewrite replace_invalid_app. apply strip_js_app.
  - change (s ++ ".js.js") with (s ++ (".js" ++ ".js")).
    rewrite string_app_assoc, (replace_invalid_app (s ++ ".js")).
    rewrite strip_js_app, replace_invalid_app. reflexivity.
Qed.

(** X4: a name that does not end in [.js] keeps its extension: only the
    separators are replaced. *)
Theorem jsfilename_keeps_other_extension (s : string) :
  (forall t, replace_invalid s <> t ++ ".js") ->
  jsfilename_of s = replace_invalid s.
Proof.
  intros H. unfold jsfilename_of. apply strip_js_other, H.
Qed.

(** X5: for a file found below the source directory, the relative name is
    the path below the directory, without the slash that follows it. *)
Theorem relativeFilename_below_directory (resolved src rest : string) :
  relativeFilename_of true resolved src (resolved ++ "/" ++ rest) = rest.
Proof.
  unfold relativeFilename_of.
  rewrite remove_first_prefix. reflexivity.
Qed.

(** ** The listing *)

Lemma filelisting_cons (path_join : string -> string -> string) (dir name : string)
    (x : fs_entry) (rest : list (string * fs_entry)) (files : list string) :
  filelisting path_join dir ((name, x) :: rest) files
  = filelisting path_join dir rest
      (list_entry path_join (path_join dir name) x files).
Proof. reflexivity. Qed.

(** What is listed is added after what the list already holds. *)
Lemma list_entry_appends (path_join : string -> string -> string) :
  forall (e : fs_entry) (f : string) (files : list string),
    list_entry path_join f e files
    = (files ++ list_entry path_join f e [])%list.
Proof.
  fix IH 1. intros [| entries] f files.
  - reflexivity.
  - change (filelisting path_join f entries files
            = (files ++ filelisting path_join f entries [])%list).
    revert files. induction entries as [| [name x] rest IHrest]; intros files.
    + cbn. rewrite app_nil_r. reflexivity.
    + rewrite !filelisting_cons.
      rewrite IHrest, (IHrest (list_entry path_join (path_join f name) x [])).
      rewrite (IH x (path_join f name) files), app_assoc. reflexivity.
Qed.

Lemma list_entry_length (path_join : string -> string -> string) :
  forall (e : fs_entry) (f : string),
    length (list_entry path_join f e []) = count_files e.
Proof.
  fix IH 1. intros [| entries] f.
  - reflexivity.
  - change (length (filelisting path_join f entries [])
            = count_files (fs_dir entries)).
    induction entries as [| [name x] rest IHrest].
    + reflexivity.
    + rewrite filelisting_cons. unfold filelisting in *.
      rewrite (list_entry_appends path_join (fs_dir rest) f), length_app.
      rewrite (IH x (path_join f name)), IHrest. reflexivity.
Qed.

(** X6: [filelisting] only adds to the list it is given, and the listing
    of a directory is the listing of its first entry followed by the
    listing of the others: files come out in the order the directories are
    read, depth first. *)
Theorem filelisting_in_reading_order (path_join : string -> string -> string)
    (dir name : string) (x : fs_entry) (rest : list (string * fs_entry))
    (files : list string) :
  filelisting path_join dir ((name, x) :: rest) files
  = (files ++ list_entry path_join (path_join dir name) x []
     ++ filelisting path_join dir rest [])%list.
Proof.
  rewrite filelisting_cons. unfold filelisting.
  rewrite (list_entry_appends path_join (fs_dir rest) dir).
  rewrite (list_entry_appends path_join x (path_join dir name) files).
  rewrite app_assoc. reflexivity.
Qed.

(** X7: the listing holds one path for each file below the directory;
    directories themselves are not listed, and a tree without files gives
    the empty list. *)
Theorem filelisting_counts_files (path_join : string -> string -> string)
    (dir : string) (entries : list (string * fs_entry)) (files : list string) :
  length (filelisting path_join dir entries files)
  = length files + count_files (fs_dir entries).
Proof.
  unfold filelisting.
  rewrite (list_entry_appends path_join (fs_dir entries) dir files).
  rewrite length_app, list_entry_length. reflexivity.
Qed.

(** ** The build options *)

Lemma prefix_first_char (a b : ascii) (w1 w2 s : string) :
  a <> b -> prefix (String a w1) s && prefix (String b w2) s = false.
Proof.
  intros Hab. destruct s as [| c s]; cbn [prefix].
  - reflexivity.
  - destruct (ascii_dec a c) as [Ea | Na]; [| reflexivity].
    destruct (ascii_dec b c) as [Eb | Nb]; [| apply andb_false_r].
    exfalso. apply Hab. congruence.
Qed.

(** X8: at most one of the development, production and test flags is
    set, and development is the one set when no environment is given. *)
Theorem env_flags_exclusive (env : jsval) :
  env_prod env && env_test env = false
  /\ env_dev env && env_prod env = false
  /\ env_dev env && env_test env = false
  /\ env_dev JUndefined = true
  /\ env_dev (JStr "") = true.
Proof.
  unfold env_dev, env_prod, env_test, starts_with_i.
  split; [| split; [| split; [| split]]]; try reflexivity.
  - apply prefix_first_char. discriminate.
  - destruct (truthy env) eqn:Ht; cbn [negb].
    + rewrite orb_false_r. apply prefix_first_char. discriminate.
    + destruct env as [| | [|] | z | s | | | | |]; try discriminate Ht;
        try reflexivity.
      * cbn [truthy] in Ht. apply negb_false_iff, Z.eqb_eq in Ht. subst z.
        reflexivity.
      * cbn [truthy] in Ht. apply negb_false_iff, String.eqb_eq in Ht. subst s.
        reflexivity.
  - destruct (truthy env) eqn:Ht; cbn [negb].
    + rewrite orb_false_r. apply prefix_first_char. discriminate.
    + destruct env as [| | [|] | z | s | | | | |]; try discriminate Ht;
        try reflexivity.
      * cbn [truthy] in Ht. apply negb_false_iff, Z.eqb_eq in Ht. subst z.
        reflexivity.
      * cbn [truthy] in Ht. apply negb_false_iff, String.eqb_eq in Ht. subst s.
        reflexivity.
Qed.

Lemma find_last (A : Type) (p : A -> bool) (l : list A) (x : A) :
  find p (l ++ [x])
  = match find p l with
    | Some y => Some y
    | None => if p x then Some x else None
    end.
Proof.
  induction l as [| y l IH]; cbn [app find].
  - reflexivity.
  - destruct (p y); [reflexivity | exact IH].
Qed.

(** After the loop over the options, a key of the table holds the value
    of the last option given under that key, and what the table held
    before when no option is. *)
Lemma add_options_lookup (toUpperCase : string -> string)
    (options build_opts : list (string * jsval)) (K : string) :
  obj_get (add_options toUpperCase options build_opts) K
  = match find (fun kv => String.eqb (define_key toUpperCase (fst kv)) K)
            (rev options) with
    | Some kv => Some (snd kv)
    | None => obj_get build_opts K
    end.
Proof.
  revert build_opts. induction options as [| [k v] rest IH]; intros build_opts.
  - reflexivity.
  - cbn [add_options rev]. rewrite IH, find_last. cbn [fst snd].
    destruct (find (fun kv => String.eqb (define_key toUpperCase (fst kv)) K)
                (rev rest)); [reflexivity |].
    rewrite obj_get_obj_set.
    destruct (String.eqb (define_key toUpperCase k) K); reflexivity.
Qed.

(** X9: a key of the table given to the compressor holds the value of the
    last option that is given under that key, and the value of the literal
    when no option is: an option replaces a flag of the same name, and of
    two options with the same key the later one stays. *)
Theorem build_opts_lookup (toUpperCase : string -> string)
    (options : list (string * jsval)) (platform now K : string) :
  obj_get (build_opts toUpperCase options platform now) K
  = match find (fun kv => String.eqb (define_key toUpperCase (fst kv)) K)
            (rev options) with
    | Some kv => Some (snd kv)
    | None => obj_get (default_build_opts options platform now) K
    end.
Proof.
  unfold build_opts. apply add_options_lookup.
Qed.

(** * Concrete runs of the further properties *)

(** [app.hjs] keeps its extension. *)
Lemma jsfilename_of_app_hjs :
  jsfilename_of "app.hjs" = "app.hjs".
Proof.
  apply (jsfilename_keeps_other_extension "app.hjs").
  intros t H. cbn in H.
  repeat (destruct t as [| ? t]; cbn in H; [discriminate H | injection H as _ H]).
  destruct t; discriminate H.
Defined.

(** [{__proto__: "x", a: "1", b: "2", a: "3"}] resolves to an object
    with the keys [a] and [b]. *)
Lemma dictionary_of_repeated_key_keys :
  makeDictionaryFromArg example_scopes print_min example_host 1
    (AST_Object [("__proto__", AST_String "x"); ("a", AST_String "1");
                 ("b", AST_String "2"); ("a", AST_String "3")])
    AST_EmptyStatement
  = Ok (JObj [("a", JStr "3"); ("b", JStr "2")])
  /\ exists o,
      JObj [("a", JStr "3"); ("b", JStr "2")] = JObject o
      /\ NoDup (map fst (own o))
      /\ (forall k, In k (map fst (own o))
                    -> In k ["__proto__"; "a"; "b"; "a"])
      /\ (forall k, k <> "__proto__" -> In k ["__proto__"; "a"; "b"; "a"]
                    -> In k (map fst (own o)))
      /\ ((forall value w,
              In ("__proto__", value)
                [("__proto__", AST_String "x"); ("a", AST_String "1");
                 ("b", AST_String "2"); ("a", AST_String "3")]
              -> toValue example_scopes print_min example_host 1 (Some value)
                   AST_EmptyStatement = Ok w
              -> is_object_or_null w = false)
          -> JObj [("a", JStr "3"); ("b", JStr "2")] = JObj (own o)
             /\ ~ In "__proto__" (map fst (own o))).
Proof.
  split.
  - vm_compute. reflexivity.
  - apply (makeDictionaryFromArg_keys example_scopes print_min example_host 1
             [("__proto__", AST_String "x"); ("a", AST_String "1");
              ("b", AST_String "2"); ("a", AST_String "3")]
             AST_EmptyStatement).
    vm_compute. reflexivity.
Defined.

(** In [{a: "1", b: "2", a: "3"}] the key [a] holds ["3"]. *)
Lemma dictionary_of_repeated_key_value :
  exists o,
    JObj [("a", JStr "3"); ("b", JStr "2")] = JObject o
    /\ obj_get (own o) "a" = Some (JStr "3").
Proof.
  apply (makeDictionaryFromArg_last_wins example_scopes print_min example_host 1
           [("a", AST_String "1"); ("b", AST_String "2")] [] "a" (AST_String "3")
           AST_EmptyStatement).
  - discriminate.
  - intros [].
  - reflexivity.
  - vm_compute. reflexivity.
Defined.

(** [native("x");] throws and records nothing. *)
Lemma visit_native_string_throws :
  visit example_scopes print_min example_host example_symbol 1
    (AST_SimpleStatement (at_line 1 0)
       (AST_Call (at_line 1 0) (AST_SymbolRef (at_line 1 0) "native" 2)
          [AST_String "x"]))
    (new_SourceFile "app.hjs" "app")
  = (new_SourceFile "app.hjs" "app",
     Throw (TypeError "Cannot call method 'forEach' of undefined")).
Proof.
  apply visit_native_needs_object_literal. reflexivity.
Defined.

(** [x] is declared nowhere; [native] is declared as a function, without
    initialiser. *)
Lemma toValue_identifier_examples :
  toValue example_scopes print_min example_host 1
    (Some (AST_SymbolRef (at_line 3 7) "x" 2)) AST_EmptyStatement
  = Throw (Error "Couldn't find variable named: x at app.hjs on 3:7")
  /\ toValue example_scopes print_min example_host 2
       (Some (AST_SymbolRef (at_line 3 7) "native" 1)) AST_EmptyStatement
     = Ok JNull.
Proof.
  split.
  - apply (proj1 (toValue_identifier_edges example_scopes print_min example_host
                    0 (at_line 3 7) "x" 2 AST_EmptyStatement
                    ltac:(discriminate))).
    reflexivity.
  - apply (proj2 (toValue_identifier_edges example_scopes print_min example_host
                    0 (at_line 3 7) "native" 1 AST_EmptyStatement
                    ltac:(discriminate)) (mkSymbolDef None));
      reflexivity.
Defined.

(** [var a = a;] *)
Lemma toValue_var_a_a :
  toValue cyclic_scopes print_min example_host 100
    (Some (AST_SymbolRef (at_line 2 0) "a" 0)) AST_EmptyStatement
  = OutOfFuel.
Proof.
  apply (toValue_self_reference cyclic_scopes print_min example_host
           (at_line 2 0) (at_line 1 8) "a" 0
           (mkSymbolDef (Some (AST_SymbolRef (at_line 1 8) "a" 0)))
           AST_EmptyStatement).
  - discriminate.
  - reflexivity.
  - reflexivity.
Defined.

(** [native({path: "a" + w})] in the file that declares the function
    [native]: the declaration has no initialiser. *)
Lemma evalExpression_beside_a_function :
  evalExpression example_scopes print_min example_host
    (AST_Call (at_line 2 0) (AST_SymbolRef (at_line 2 0) "native" 1) [])
    (AST_Binary "+" (AST_String "a") (AST_Number 1))
  = Throw (TypeError "Cannot read property 'value' of undefined").
Proof.
  apply (evalExpression_uninitialised_declaration example_scopes print_min
           example_host _ _ [("native", mkSymbolDef None)] "native"
           (mkSymbolDef None)).
  - reflexivity.
  - left. reflexivity.
  - reflexivity.
Defined.

(** With [var __proto__ = 1, w = 10], ["a" + w] is evaluated by a
    function of [w] alone applied to [1] and [10]: [w] is bound to [1]. *)
Lemma evalExpression_with_w :
  evalExpression proto_scopes print_min example_host
    (AST_Call (at_line 2 0) (AST_SymbolRef (at_line 2 0) "native" 0) [])
    (AST_Binary "+" (AST_String "a") (AST_SymbolRef (at_line 2 19) "w" 0))
  = Ok (JStr "a1").
Proof.
  rewrite (evalExpression_scope_arguments proto_scopes print_min example_host
             _ _ (AST_String "a") (AST_SymbolRef (at_line 2 19) "w" 0) "+"
             [("__proto__", mkSymbolDef (Some (AST_Number 1)));
              ("w", mkSymbolDef (Some (AST_Number 10)))]).
  - vm_compute. reflexivity.
  - reflexivity.
  - repeat constructor; cbn [In]; intros H;
      repeat (destruct H as [H | H]; try discriminate H); exact H.
  - intros k d [E | [E | []]]; injection E as <- <-; discriminate.
  - reflexivity.
Defined.

(** The callback throws on [native("x");] and the unit, which held an
    import, is as it was. *)
Lemma visit_native_string_unit_unchanged :
  fst (visit example_scopes print_min example_host example_symbol 1
         (AST_SimpleStatement (at_line 1 0)
            (AST_Call (at_line 1 0) (AST_SymbolRef (at_line 1 0) "native" 2)
               [AST_String "x"]))
         unit_with_import_a)
  = unit_with_import_a.
Proof.
  apply (visit_throw_records_nothing example_scopes print_min example_host
           example_symbol 1
           (AST_SimpleStatement (at_line 1 0)
              (AST_Call (at_line 1 0) (AST_SymbolRef (at_line 1 0) "native" 2)
                 [AST_String "x"]))
           unit_with_import_a _
           (TypeError "Cannot call method 'forEach' of undefined")).
  vm_compute. reflexivity.
Defined.

(** [import("a", "ignored");] records ["a"]. *)
Lemma visit_import_a :
  visit example_scopes print_min example_host example_symbol 1
    (AST_SimpleStatement (at_line 1 0)
       (AST_Call (at_line 1 0) (AST_SymbolRef (at_line 1 0) "import" 2)
          [AST_String "a"; AST_String "ignored"]))
    (new_SourceFile "app.hjs" "app.hjs")
  = (unit_with_import_a, Ok (Some AST_EmptyStatement)).
Proof.
  apply (visit_marker_records example_scopes print_min example_host
           example_symbol 1 (at_line 1 0) (at_line 1 0) (at_line 1 0) 2 "import"
           (AST_String "a") [AST_String "ignored"]
           (new_SourceFile "app.hjs" "app.hjs") (JStr "a")).
  - right. right. right. left. reflexivity.
  - reflexivity.
Defined.

(** The placeholder of [bar(x+1, "s")] is left alone by a second
    traversal. *)
Lemma transform_bar_call_twice :
  transform example_scopes print_min example_host example_symbol 0
    (AST_SymbolConst ("bar_0(x+1," ++ dquote ++ "s" ++ dquote ++ ")"))
    unit_with_bar_call
  = (unit_with_bar_call,
     Ok (AST_SymbolConst ("bar_0(x+1," ++ dquote ++ "s" ++ dquote ++ ")"))).
Proof.
  apply (transform_is_stable example_scopes print_min example_host
           example_symbol 0 bar_call _ (new_SourceFile "app.hjs" "app")
           unit_with_bar_call).
  vm_compute. reflexivity.
Defined.

(** [s.toUTF8(); native();] beside [function native() {}]. *)
Lemma compile_plain_file :
  inert example_scopes (in_ast plain_file) = true
  /\ compile_file example_scopes print_min example_host example_symbol print_min
       false 1 (mkDriver [] [] empty_object) plain_file
     = (mkDriver
          [mkSourceFile "util/str-tools.js" "util_str_tools" None [] [] [] [] []
             [] false (Some "s.toUTF8();native();")]
          [0]
          (mkObject
             [("util_str_tools",
               mkEntry "d41d8cd98f00b204e9800998ecf8427e" (Live 0))]
             None),
        Continue).
Proof.
  split.
  - reflexivity.
  - apply (compile_file_inert example_scopes print_min example_host
             example_symbol print_min false 1 (mkDriver [] [] empty_object) plain_file);
      reflexivity.
Defined.

(** A run over [plain_file], the unchanged [lib/a.js] found in the cache
    and [plain_file] again hands three units, named as the files are. *)
Lemma compile_three_files_three_units :
  length
    (heap (fst (compile_files example_scopes print_min example_host
                  example_symbol print_min false 1
                  (mkDriver [] [] stored_cache)
                  [plain_file; unchanged_file; plain_file])))
  = 3
  /\ map (deref (fst (compile_files example_scopes print_min example_host
                        example_symbol print_min false 1
                        (mkDriver [] [] stored_cache)
                        [plain_file; unchanged_file; plain_file])))
       (codegen_sources
          (fst (compile_files example_scopes print_min example_host
                  example_symbol print_min false 1
                  (mkDriver [] [] stored_cache)
                  [plain_file; unchanged_file; plain_file])))
     = heap (fst (compile_files example_scopes print_min example_host
                    example_symbol print_min false 1
                    (mkDriver [] [] stored_cache)
                    [plain_file; unchanged_file; plain_file]))
  /\ map jsname
       (map (deref (fst (compile_files example_scopes print_min example_host
                           example_symbol print_min false 1
                           (mkDriver [] [] stored_cache)
                           [plain_file; unchanged_file; plain_file])))
          (codegen_sources
             (fst (compile_files example_scopes print_min example_host
                     example_symbol print_min false 1
                     (mkDriver [] [] stored_cache)
                     [plain_file; unchanged_file; plain_file]))))
     = ["util_str_tools"; "lib_a"; "util_str_tools"].
Proof.
  apply (compile_files_hands_every_unit example_scopes print_min example_host
           example_symbol print_min false 1 stored_cache
           [plain_file; unchanged_file; plain_file]).
  - intros k e H. unfold lookup in H. cbn [fileCache stored_cache own proto obj_get] in H.
    destruct (String.eqb k "lib_a") eqn:E.
    + injection H as <-. apply String.eqb_eq in E. symmetry. exact E.
    + destruct (String.eqb k "__proto__"); discriminate H.
  - vm_compute. reflexivity.
Defined.

(** After [plain_file], a file of the same name and digest whose unit is
    cacheable is a cache hit. *)
Lemma plain_file_then_hit :
  cache_hit false
    (fst (compile_file example_scopes print_min example_host example_symbol
            print_min false 1 (mkDriver [] [] empty_object) plain_file))
    (mkInput "util/str-tools.js" "util_str_tools"
       "d41d8cd98f00b204e9800998ecf8427e" AST_EmptyStatement true)
  = Some (mkSourceFile "util/str-tools.js" "util_str_tools" None [] [] [] [] []
            [] false (Some "s.toUTF8();native();")).
Proof.
  apply (proj1 (compile_file_then_cache_hit example_scopes print_min
                  example_host example_symbol print_min false 1
                  (mkDriver [] [] empty_object) plain_file
                  (mkInput "util/str-tools.js" "util_str_tools"
                     "d41d8cd98f00b204e9800998ecf8427e" AST_EmptyStatement true)
                  (new_SourceFile "util/str-tools.js" "util_str_tools")
                  (in_ast plain_file) eq_refl eq_refl eq_refl)).
Defined.

(** The imports of [import("fabs"); import("Foundation/NSString");
    import("fabs");], as in examples/ios/globals/app.hjs. *)
Lemma transform_three_imports :
  importDecls
    (fst (transform example_scopes print_min example_host example_symbol 1
            (AST_Toplevel
               (map (import_statement 2)
                  [(at_line 1 0, "fabs"); (at_line 3 0, "Foundation/NSString");
                   (at_line 4 0, "fabs")]))
            (new_SourceFile "app.hjs" "app.hjs")))
  = [JStr "fabs"; JStr "Foundation/NSString"; JStr "fabs"].
Proof.
  apply (proj2 (transform_imports_in_source_order example_scopes print_min
                  example_host example_symbol 0 2
                  [(at_line 1 0, "fabs"); (at_line 3 0, "Foundation/NSString");
                   (at_line 4 0, "fabs")]
                  (new_SourceFile "app.hjs" "app.hjs")
                  ltac:(repeat constructor; discriminate))).
Defined.
